(** * Order fulfilment over four services: a shallow embedding

    The repository is four Express services (order, inventory, payment and
    order tracking) that share one relational store through Prisma and one
    fanout exchange through amqplib.  This file embeds their request
    handlers and queue consumers as computations in a small monad and
    proves what the specification says about them.

    - [Db] is the Prisma schema ([Order], [User], [Products],
      [OrderTrack]); the tables are lists of rows, so that duplicate rows
      are representable and uniqueness is something to prove.
    - [M] is the handlers' control flow: state passing, [throw], the early
      [return;] of a handler, and [try]/[catch].
    - Float columns and JavaScript numbers are binary64: they are the
      kernel's primitive floats. *)

From Stdlib Require Import Floats ZArith.
From stdpp Require Import gmap strings list pretty sorting.

Local Open Scope string_scope.
Local Open Scope Z_scope.
Local Open Scope list_scope.

(** ** The data model (schema.prisma) *)

(** [Order.products] is the implicit many-to-many relation: the identities
    of the connected [Products] rows, each at most once. *)
Record Order := mkOrder {
  order_id : string;
  order_userId : string;
  order_products : list string
}.

(** [balance] and [price] are [Float] columns.  What the client does
    with a NaN or an infinity, read from the store or handed to it, is
    not modelled: where an amount matters, it is taken to be finite. *)
Record User := mkUser {
  user_id : string;
  user_balance : float
}.

Record Products := mkProducts {
  product_id : string;
  product_price : float;
  product_stockAmount : Z
}.

(** [status] is a plain [String] column: the store accepts any text. *)
Record OrderTrack := mkOrderTrack {
  track_id : string;
  track_orderId : string;
  track_status : string
}.

(** The four tables, and [position]: SQL fixes no order for the rows a
    query returns without [ORDER BY], so the store comes with a ranking of
    the product identities, by which the products included with an order
    are handed back (rows of equal rank in table order).  Nothing is
    assumed of the ranking, and no handler writes it. *)
Record Db := mkDb {
  orders : list Order;
  users : list User;
  products : list Products;
  orderTracks : list OrderTrack;
  position : string → nat
}.

Definition set_orders (f : list Order → list Order) (d : Db) : Db :=
  mkDb (f (orders d)) (users d) (products d) (orderTracks d) (position d).
Definition set_users (f : list User → list User) (d : Db) : Db :=
  mkDb (orders d) (f (users d)) (products d) (orderTracks d) (position d).
Definition set_products (f : list Products → list Products) (d : Db) : Db :=
  mkDb (orders d) (users d) (f (products d)) (orderTracks d) (position d).
Definition set_orderTracks (f : list OrderTrack → list OrderTrack) (d : Db) : Db :=
  mkDb (orders d) (users d) (products d) (f (orderTracks d)) (position d).

(** A ranking under which rows come back in table order. *)
Definition table_order : string → nat := λ _, 0%nat.

(** ** The wire contracts (my-shared/src/types) *)

(** [QueueMessage]: the tagged union published on the exchange.  The
    payment status travels as JSON text. *)
Inductive QueueMessage :=
| OrderCreated (orderId : string) (productIds : list string)
| InventoryChecked (orderId : string) (isAvailable : bool)
| PaymentProcessed (orderId : string) (status : string).

(** The three values of [message]. *)
Inductive Kind :=
| KOrderCreated
| KInventoryChecked
| KPaymentProcessed.

(** What a consumer callback can be handed: [null], an empty payload, text
    that [JSON.parse] rejects, a falsy JSON value, an object whose
    [message] is none of the three kinds, a [QueueMessage], or an object
    of one of the three kinds whose [data] is missing or [null]. *)
Inductive Delivery :=
| DNull
| DEmpty
| DMalformed
| DFalsy
| DUnknown
| DMsg (m : QueueMessage)
| DNoData (kind : Kind).

(** JSON bodies of the HTTP responses. *)
Inductive Body :=
| BError (error : string)
| BMsg (msg : string)
| BCheckInventory (orderId : string) (isAvailable : bool)
| BCreateTracker (trackerId : string) (status : string)
| BPaymentProcessed (orderId : string) (status : string)
| BTracker (tracker : OrderTrack)
| BOrder (msg : string) (order : Order).

Record HttpResponse := mkResponse {
  res_status : Z;
  res_body : Body
}.

(** The calls one service makes to another. *)
Inductive HttpRequest :=
| GetInventory (orderId : string) (productIds : list string)
| PatchInventoryUpdate (orderId : string)
| PostTrackCreate (orderId : string)
| PatchTrackUpdate (trackerId : string) (newStatus : string)
| PostPayment (orderId : string).

(** ** The handlers' state *)

(** What a handler does to the outside, in the order it does it: a call
    to another service with what came back ([None] when nothing did), a
    response written to the client, a message handed to the exchange. *)
Inductive Effect :=
| Called (req : HttpRequest) (answer : option HttpResponse)
| Sent (status : Z) (body : Body)
| Published (msg : QueueMessage).

(** The module-level [channel] variable of a service: never assigned, an
    open channel (whose [publish] returns whether the write buffer took
    the frame), or a channel whose connection is gone. *)
Inductive Channel :=
| ChUndefined
| ChOpen (writable : bool)
| ChClosed.

(** What all services share: the store, the schedule of storage faults
    (one entry per Prisma operation, in execution order, [true] for an
    operation that rejects; none left means no fault), and the source of
    [uuid()] defaults. *)
Record World := mkWorld {
  db : Db;
  faults : list bool;
  uuid : nat → string;
  uuid_next : nat
}.

Record St := mkSt {
  world : World;
  channel : Channel;
  trace : list Effect
}.

Definition set_world (f : World → World) (s : St) : St :=
  mkSt (f (world s)) (channel s) (trace s).
Definition emit (e : Effect) (s : St) : St :=
  mkSt (world s) (channel s) (trace s ++ [e]).
Definition set_db (f : Db → Db) (w : World) : World :=
  mkWorld (f (db w)) (faults w) (uuid w) (uuid_next w).
Definition set_faults (fs : list bool) (w : World) : World :=
  mkWorld (db w) fs (uuid w) (uuid_next w).

(** ** The control-flow monad *)

Inductive Outcome (A : Type) :=
| Normal (a : A)
| Returned
| Thrown.
Arguments Normal {A} a.
Arguments Returned {A}.
Arguments Thrown {A}.

Definition M (A : Type) : Type := St → Outcome A * St.

Definition ret {A} (a : A) : M A := λ s, (Normal a, s).
Definition bind {A B} (k : A → M B) (m : M A) : M B := λ s,
  match m s with
  | (Normal a, s') => k a s'
  | (Returned, s') => (Returned, s')
  | (Thrown, s') => (Thrown, s')
  end.

(** The instances behind stdpp's [x ← m; k] and [m;; k]. *)
#[global] Instance M_ret : MRet M := @ret.
#[global] Instance M_bind : MBind M := @bind.

(** [return;] *)
Definition return_ {A} : M A := λ s, (Returned, s).
(** [throw new Error(...)] *)
Definition throw {A} : M A := λ s, (Thrown, s).
(** [try { body } catch (error) { handler }] *)
Definition try_catch {A} (body handler : M A) : M A := λ s,
  match body s with
  | (Thrown, s') => handler s'
  | r => r
  end.

(** A handler in flight; what is left when it settles. *)
Definition run {A} (m : M A) (s : St) : St := snd (m s).
Definition outcome {A} (m : M A) (s : St) : Outcome A := fst (m s).

(** The response the client receives: the first one written. *)
Fixpoint response_of (t : list Effect) : option HttpResponse :=
  match t with
  | [] => None
  | Sent c b :: _ => Some (mkResponse c b)
  | _ :: t' => response_of t'
  end.

(** [res.status(c).json(b)]: writes the response; a second write on the
    same [res] throws (headers already sent). *)
Definition send (c : Z) (b : Body) : M unit := λ s,
  match response_of (trace s) with
  | Some _ => (Thrown, s)
  | None => (Normal (), emit (Sent c b) s)
  end.

(** [channel.publish(exchange, "", Buffer.from(JSON.stringify(msg)))] *)
Definition publish (msg : QueueMessage) : M bool := λ s,
  match channel s with
  | ChOpen w => (Normal w, emit (Published msg) s)
  | _ => (Thrown, s)
  end.

(** Reading the module-level [channel]. *)
Definition read_channel : M Channel := λ s, (Normal (channel s), s).

(** One Prisma operation: it takes the next entry of the fault schedule,
    then runs the query; [None] is a rejected query (record not found, a
    violated constraint). *)
Definition prisma {A} (q : Db → option (A * Db)) : M A := λ s,
  match faults (world s) with
  | true :: fs => (Thrown, set_world (set_faults fs) s)
  | fs =>
      let s1 := set_world (set_faults (tail fs)) s in
      match q (db (world s1)) with
      | Some (a, d') => (Normal a, set_world (set_db (λ _, d')) s1)
      | None => (Thrown, s1)
      end
  end.

(** [@default(uuid())] *)
Definition fresh_uuid : M string := λ s,
  let w := world s in
  (Normal (uuid w (uuid_next w)),
   set_world (λ w, mkWorld (db w) (faults w) (uuid w) (S (uuid_next w))) s).

(** JavaScript's [!x] on a string field of a body: absent and empty are
    both falsy; an absent field is the empty string here. *)
Definition falsy (x : string) : bool := bool_decide (x = "").

(** ** Queries *)

Definition find_order (id : string) (d : Db) : option Order :=
  find (λ o, bool_decide (order_id o = id)) (orders d).
Definition find_user (id : string) (d : Db) : option User :=
  find (λ u, bool_decide (user_id u = id)) (users d).
Definition find_track (id : string) (d : Db) : option OrderTrack :=
  find (λ t, bool_decide (track_id t = id)) (orderTracks d).
Definition find_track_of_order (orderId : string) (d : Db) : option OrderTrack :=
  find (λ t, bool_decide (track_orderId t = orderId)) (orderTracks d).

(** [prisma.order.findUnique({ where: { id } })] *)
Definition order_findUnique (id : string) (d : Db) : option (option Order * Db) :=
  Some (find_order id d, d).

(** [prisma.orderTrack.findUnique({ where: { id } })] *)
Definition orderTrack_findUnique (id : string) (d : Db) : option (option OrderTrack * Db) :=
  Some (find_track id d, d).

(** [prisma.orderTrack.create]: rejected when the primary key is taken,
    when the order already has a tracker ([orderId @unique]) and when the
    order does not exist (the relation's foreign key). *)
Definition orderTrack_create (id orderId status : string) (d : Db)
  : option (OrderTrack * Db) :=
  match find_track id d, find_track_of_order orderId d, find_order orderId d with
  | None, None, Some _ =>
      let t := mkOrderTrack id orderId status in
      Some (t, set_orderTracks (λ ts, ts ++ [t]) d)
  | _, _, _ => None
  end.

Definition with_status (status : string) (t : OrderTrack) : OrderTrack :=
  mkOrderTrack (track_id t) (track_orderId t) status.

(** [prisma.orderTrack.update({ where: { id }, data: { status } })]:
    rejected when no row matches. *)
Definition orderTrack_update_id (id status : string) (d : Db) : option (unit * Db) :=
  match find_track id d with
  | None => None
  | Some _ =>
      Some ((), set_orderTracks
                  (fmap (λ t, if bool_decide (track_id t = id)
                              then with_status status t else t)) d)
  end.

(** [prisma.orderTrack.update({ where: { orderId }, data: { status } })] *)
Definition orderTrack_update_orderId (orderId status : string) (d : Db)
  : option (unit * Db) :=
  match find_track_of_order orderId d with
  | None => None
  | Some _ =>
      Some ((), set_orderTracks
                  (fmap (λ t, if bool_decide (track_orderId t = orderId)
                              then with_status status t else t)) d)
  end.

(** ** The order tracking service *)

Module Tracking.

(** The callback of [channel.consume] on the track queue.  Each branch
    starts with [const { orderId, ... } = parsedMessage.data], which
    throws when there is no [data]. *)
Definition consumer (msg : Delivery) : M unit :=
  match msg with
  | DNull | DEmpty | DMalformed | DFalsy => return_
  | DUnknown => ret ()
  | DNoData _ => throw
  | DMsg (OrderCreated orderId _) =>
      id ← fresh_uuid;
      _ ← prisma (orderTrack_create id orderId "created");
      ret ()
  | DMsg (InventoryChecked orderId isAvailable) =>
      if isAvailable then return_
      else prisma (orderTrack_update_orderId orderId "canceled")
  | DMsg (PaymentProcessed orderId status) =>
      let newStatus := if bool_decide (status = "success") then "paid" else "canceled" in
      prisma (orderTrack_update_orderId orderId newStatus)
  end.

(** [POST /api/v1/track/create] *)
Definition create (orderId : string) : M unit :=
  if falsy orderId then
    send 400 (BError "orderId is required");; return_
  else
    try_catch
      (order ← prisma (order_findUnique orderId);
       match order with
       | None => send 404 (BError ("Order " +:+ orderId +:+ " not found"));; return_
       | Some order =>
           id ← fresh_uuid;
           tracker ← prisma (orderTrack_create id (order_id order) "created");
           send 201 (BCreateTracker (track_id tracker) (track_status tracker))
       end)
      (send 500 (BError "Internal Server Error while calling create tracker Endpoint");;
       return_).

(** [PATCH /api/v1/track/update/:trackerId].  The third guard writes its
    400 and goes on: it has no [return]. *)
Definition update (trackerId newStatus : string) : M unit :=
  if falsy trackerId then
    send 400 (BError "trackerId is required");; return_
  else if falsy newStatus then
    send 400 (BError "newStatus is required");; return_
  else
    (if bool_decide (newStatus ≠ "paid") && bool_decide (newStatus ≠ "canceled")
     then send 400 (BError "newStatus must be either 'paid' or 'canceled'")
     else ret ());;
    try_catch
      (tracker ← prisma (orderTrack_findUnique trackerId);
       match tracker with
       | None => send 404 (BError ("Tracker " +:+ trackerId +:+ " not found"));; return_
       | Some _ =>
           prisma (orderTrack_update_id trackerId newStatus);;
           send 200 (BMsg "Tracker updated")
       end)
      (send 500 (BError "Internal Server Error while updating tracker");;
       return_).

(** [GET /api/v1/track/:trackerId] *)
Definition get (trackerId : string) : M unit :=
  if falsy trackerId then
    send 400 (BError "trackerId is required");; return_
  else
    try_catch
      (tracker ← prisma (orderTrack_findUnique trackerId);
       match tracker with
       | None => send 404 (BError ("Tracker " +:+ trackerId +:+ " not found"));; return_
       | Some tracker => send 200 (BTracker tracker)
       end)
      (send 500 (BError "Internal Server Error while calling get tracker Endpoint");;
       return_).

(** Everything the service does: a delivery from its queue, or a request
    on one of its three routes. *)
Inductive Step :=
| Deliver (msg : Delivery)
| Create (orderId : string)
| Update (trackerId newStatus : string)
| Get (trackerId : string).

Definition handler (st : Step) : M unit :=
  match st with
  | Deliver msg => consumer msg
  | Create orderId => create orderId
  | Update trackerId newStatus => update trackerId newStatus
  | Get trackerId => get trackerId
  end.

End Tracking.

(** ** The inventory service *)

(** The stored rows a request matches. *)
Definition matched (productIds : list string) (d : Db) : list Products :=
  filter (λ p, product_id p ∈ productIds) (products d).

(** [prisma.products.findMany({ where: { id: { in: productIds } } })] *)
Definition products_findMany (productIds : list string) (d : Db)
  : option (list Products * Db) :=
  Some (matched productIds d, d).

(** The relation [Order.products] after [connect]: a product already
    connected is not connected twice. *)
Definition connect (ids : list string) (o : Order) : Order :=
  mkOrder (order_id o) (order_userId o)
    (foldl (λ acc id, if bool_decide (id ∈ acc) then acc else acc ++ [id])
           (order_products o) ids).

(** [prisma.order.update({ where: { id }, data: { products: { connect } } })]:
    rejected when the order or one of the products does not exist. *)
Definition order_connect_products (orderId : string) (ids : list string) (d : Db)
  : option (unit * Db) :=
  match find_order orderId d with
  | None => None
  | Some _ =>
      if forallb (λ id, bool_decide (id ∈ product_id <$> products d)) ids
      then Some ((), set_orders
                       (fmap (λ o, if bool_decide (order_id o = orderId)
                                   then connect ids o else o)) d)
      else None
  end.

(** [prisma.products.updateMany({ where: { id: { in: ids } },
     data: { stockAmount: { decrement: 1 } } })].  [stockAmount] is an
    [Int] column, 32 bits wide: when the decrement takes one of the rows
    below the least value the statement is rejected and no row is
    written. *)
Definition decremented (ids : list string) (p : Products) : Products :=
  if bool_decide (product_id p ∈ ids)
  then mkProducts (product_id p) (product_price p) (product_stockAmount p - 1)
  else p.

Definition underflows (ids : list string) (ps : list Products) : bool :=
  existsb (λ p, bool_decide (product_id p ∈ ids)
                && (product_stockAmount p - 1 <? -2147483648)) ps.

Definition products_decrement (ids : list string) (d : Db) : option (unit * Db) :=
  if underflows ids (products d) then None
  else Some ((), set_products (fmap (decremented ids)) d).

Module Inventory.

(** The object [{}] that the [reduce] starts from inherits the members
    of [Object.prototype]. *)
Definition object_prototype : list string :=
  ["constructor"; "__defineGetter__"; "__defineSetter__"; "hasOwnProperty";
   "__lookupGetter__"; "__lookupSetter__"; "isPrototypeOf";
   "propertyIsEnumerable"; "toString"; "valueOf"; "__proto__";
   "toLocaleString"].

(** What a key of that object holds when it is not [undefined]: a number,
    or something that is not one (an inherited function or object, or the
    text that [+ 1] makes of it).  What is not a number is truthy, stays
    so under [+ 1], and is [<=] no number. *)
Inductive Held :=
| Count (n : Z)
| NotANumber.

(** [acc[id]]: the object's own property, else the inherited one. *)
Definition held (acc : gmap string Held) (id : string) : option Held :=
  match acc !! id with
  | Some v => Some v
  | None => if bool_decide (id ∈ object_prototype) then Some NotANumber else None
  end.

(** [productIds.reduce((acc, id) => { acc[id] = acc[id] === undefined
     ? 1 : acc[id] + 1; return acc; }, {})]; the map holds the object's
    own properties.  Assigning a text to [__proto__] does nothing. *)
Definition groupedProducts (productIds : list string) : gmap string Held :=
  foldl (λ acc id,
           let v := match held acc id with
                    | None => Count 1
                    | Some (Count n) => Count (n + 1)
                    | Some NotANumber => NotANumber
                    end in
           if bool_decide (id = "__proto__") then acc else <[id := v]> acc)
        ∅ productIds.

(** [products.every((product) => groupedProducts[product.id] &&
     groupedProducts[product.id] <= product.stockAmount)]: [undefined] and
    the count 0 are falsy. *)
Definition isAvailable (found : list Products) (grouped : gmap string Held) : bool :=
  forallb (λ p, match held grouped (product_id p) with
                | Some (Count n) => bool_decide (n ≠ 0) && (n <=? product_stockAmount p)
                | _ => false
                end) found.

(** What both entry points do once the rows are fetched and found
    non-empty, up to reporting the result. *)
Definition reserve (orderId : string) (productIds : list string)
    (found : list Products) : M bool :=
  let available := isAvailable found (groupedProducts productIds) in
  (if available
   then prisma (order_connect_products orderId (product_id <$> found))
   else mret ());;
  mret available.

(** The callback of [channel.consume] on the inventory queue.  In its
    two branches [const { orderId, ... } = parsedMessage.data] stands
    before the [try]. *)
Definition consumer (msg : Delivery) : M unit :=
  match msg with
  | DNull | DEmpty | DMalformed | DFalsy => return_
  | DNoData KOrderCreated | DNoData KPaymentProcessed => throw
  | DMsg (OrderCreated orderId productIds) =>
      try_catch
        (found ← prisma (products_findMany productIds);
         if bool_decide (length found = 0%nat) then return_
         else
           available ← reserve orderId productIds found;
           publish (InventoryChecked orderId available);;
           mret ())
        return_
  | DMsg (PaymentProcessed orderId status) =>
      if bool_decide (status = "failed") then return_
      else
        try_catch
          (order ← prisma (order_findUnique orderId);
           match order with
           | None => return_
           | Some order => prisma (products_decrement (order_products order))
           end)
          return_
  | DMsg (InventoryChecked _ _) | DNoData KInventoryChecked | DUnknown => return_
  end.

(** [GET /api/v1/inventory] *)
Definition check (orderId : string) (productIds : list string) : M unit :=
  if falsy orderId || bool_decide (length productIds = 0%nat) then
    send 400 (BError "orderId and productIds are required");; return_
  else
    try_catch
      (found ← prisma (products_findMany productIds);
       if bool_decide (length found = 0%nat) then
         send 404 (BError "Products not found");; return_
       else
         available ← reserve orderId productIds found;
         send 200 (BCheckInventory orderId available))
      (send 500 (BError "Internal Server Error while calling inventory Endpoint");;
       return_).

(** [PATCH /api/v1/inventory/update/:orderId] *)
Definition update (orderId : string) : M unit :=
  if falsy orderId then
    send 400 (BError "orderId is required");; return_
  else
    try_catch
      (order ← prisma (order_findUnique orderId);
       match order with
       | None => send 404 (BError ("Order " +:+ orderId +:+ " not found"));; return_
       | Some order =>
           prisma (products_decrement (order_products order));;
           send 200 (BMsg "Inventory updated successfully")
       end)
      (send 500 (BError "Internal Server Error while calling update inventory Endpoint");;
       return_).

End Inventory.

(** ** Calls between services *)

(** What a response body gives for the fields the callers read; a field
    that is not there is [undefined]: falsy, different from every text,
    and ["undefined"] once interpolated in a URL. *)
Definition body_isAvailable (b : Body) : bool :=
  match b with BCheckInventory _ a => a | _ => false end.
Definition body_trackerId (b : Body) : string :=
  match b with BCreateTracker t _ => t | _ => "undefined" end.
Definition body_status (b : Body) : option string :=
  match b with
  | BCreateTracker _ st | BPaymentProcessed _ st => Some st
  | _ => None
  end.

(** A handler as the service behind a route sees it and as its caller
    does: it starts with nothing written, and the caller gets the
    response it wrote, if any. *)
Definition fresh (ch : Channel) (w : World) : St := mkSt w ch [].
Definition serve (h : M unit) (w : World) : option HttpResponse * World :=
  let s := run h (fresh ChUndefined w) in
  (response_of (trace s), world s).

Section calls.
(** The services on the other side of the network. *)
Variable peer : HttpRequest → World → option HttpResponse * World.

(** [axios.get], [axios.post], [axios.patch] under
    [validateStatus = (status) => status < 500]: the promise rejects
    when no response comes back and when the status is 500 or more. *)
Definition axios (req : HttpRequest) : M HttpResponse := λ s,
  let (answer, w') := peer req (world s) in
  let s' := emit (Called req answer) (set_world (λ _, w') s) in
  match answer with
  | Some r => if res_status r <? 500 then (Normal r, s') else (Thrown, s')
  | None => (Thrown, s')
  end.
End calls.

(** ** The payment service *)

(** Rows in the order of a ranking of their identities: each row is
    placed before the first row that does not rank lower. *)
Fixpoint placed (rank : string → nat) (p : Products) (l : list Products)
  : list Products :=
  match l with
  | [] => [p]
  | q :: l' =>
      if (rank (product_id p) <=? rank (product_id q))%nat
      then p :: q :: l'
      else q :: placed rank p l'
  end.

Definition by_position (rank : string → nat) (l : list Products) : list Products :=
  foldr (placed rank) [] l.

(** [prisma.order.findUnique({ where: { id }, include: { user: { select:
     { balance: true } }, products: { select: { price: true } } } })]: the
    order with its buyer's balance and the prices of the products
    connected to it, in the order the store hands them back; rejected
    when the required relation [user] has no row. *)
Definition attached_prices (o : Order) (d : Db) : list float :=
  product_price
    <$> by_position (position d)
          (filter (λ p, product_id p ∈ order_products o) (products d)).

Definition order_findUnique_priced (id : string) (d : Db)
  : option (option (Order * float * list float) * Db) :=
  match find_order id d with
  | None => Some (None, d)
  | Some o =>
      match find_user (order_userId o) d with
      | None => None
      | Some u => Some (Some (o, user_balance u, attached_prices o d), d)
      end
  end.

Definition debit (userId : string) (amount : float) (u : User) : User :=
  if bool_decide (user_id u = userId)
  then mkUser (user_id u) (user_balance u - amount)%float
  else u.

(** [balance] is a [double precision] column: the store computes
    [balance - amount] and rejects the statement when the result is
    infinite and neither operand is. *)
Definition overflows (balance amount : float) : bool :=
  is_infinity (balance - amount)
  && negb (is_infinity balance) && negb (is_infinity amount).

(** [prisma.user.update({ where: { id }, data: { balance: { decrement } } })] *)
Definition user_decrement_balance (userId : string) (amount : float) (d : Db)
  : option (unit * Db) :=
  match find_user userId d with
  | None => None
  | Some u =>
      if overflows (user_balance u) amount then None
      else Some ((), set_users (fmap (debit userId amount)) d)
  end.

Module Payment.

(** [order.products.map((product) => product.price)
     .reduce((acc, price) => acc + price, 0)] *)
Definition totalAmount (prices : list float) : float :=
  foldl (λ acc price, acc + price)%float 0%float prices.

(** The callback of [channel.consume] on the payment queue.  In its
    branch [const { orderId, isAvailable } = parsedMessage.data] stands
    before the [try]. *)
Definition consumer (msg : Delivery) : M unit :=
  match msg with
  | DNull | DEmpty | DMalformed | DFalsy => return_
  | DNoData KInventoryChecked => throw
  | DMsg (InventoryChecked orderId isAvailable) =>
      if negb isAvailable then return_
      else
        try_catch
          (order ← prisma (order_findUnique_priced orderId);
           match order with
           | None =>
               publish (PaymentProcessed orderId "failed");; return_
           | Some (o, balance, prices) =>
               let total := totalAmount prices in
               if (balance <? total)%float then
                 publish (PaymentProcessed orderId "failed");; return_
               else
                 prisma (user_decrement_balance (order_userId o) total);;
                 publish (PaymentProcessed orderId "success");;
                 mret ()
           end)
          return_
  | DMsg (OrderCreated _ _) | DMsg (PaymentProcessed _ _)
  | DNoData KOrderCreated | DNoData KPaymentProcessed | DUnknown => return_
  end.

Section routes.
Variable peer : HttpRequest → World → option HttpResponse * World.

(** [POST /api/v1/payment] *)
Definition pay (orderId : string) : M unit :=
  if falsy orderId then
    send 400 (BPaymentProcessed orderId "failed");; return_
  else
    try_catch
      (order ← prisma (order_findUnique_priced orderId);
       match order with
       | None => send 404 (BPaymentProcessed orderId "failed");; return_
       | Some (o, balance, prices) =>
           let total := totalAmount prices in
           if (balance <? total)%float then
             send 400 (BPaymentProcessed orderId "failed");; return_
           else
             try_catch
               (inventoryResponse ← axios peer (PatchInventoryUpdate orderId);
                if bool_decide (res_status inventoryResponse ≠ 200) then
                  send 400 (BPaymentProcessed orderId "failed");; return_
                else mret ())
               (send 500 (BError "Internal Server Error while calling inventory Endpoint");;
                return_);;
             prisma (user_decrement_balance (order_userId o) total);;
             send 200 (BPaymentProcessed (order_id o) "success")
       end)
      (send 500 (BError "Internal Server Error while processing payment")).
End routes.

End Payment.

(** ** The order service *)

(** [prisma.order.create({ data: { user: { connect: { id } } } })]:
    rejected when the primary key is taken and when the user does not
    exist. *)
Definition order_create (id userId : string) (d : Db) : option (Order * Db) :=
  match find_order id d, find_user userId d with
  | None, Some _ =>
      let o := mkOrder id userId [] in
      Some (o, set_orders (λ os, os ++ [o]) d)
  | _, _ => None
  end.

Module Orders.

(** The buyer every order is attached to. *)
Definition buyer : string := "3c3e02d1-af13-412a-b309-5382155a6bd4".

Section routes.
Variable peer : HttpRequest → World → option HttpResponse * World.

(** The payment step of [POST /api/v1/order]. *)
Definition settle (createdOrder : Order) (productId trackerId : string) : M unit :=
  try_catch
    (paymentResponse ← axios peer (PostPayment (order_id createdOrder));
     if bool_decide (res_status paymentResponse ≠ 200)
        || bool_decide (body_status (res_body paymentResponse) ≠ Some "success")
     then
       axios peer (PatchTrackUpdate trackerId "canceled");;
       send 400 (BError ("Product " +:+ productId +:+ " couldnt be paid"));;
       return_
     else mret ())
    (send 500 (BError "Internal Server Error while calling payment Endpoint");;
     return_).

(** [POST /api/v1/order] *)
Definition create (productId : string) : M unit :=
  if falsy productId then
    send 400 (BError "productId is required");; return_
  else
    try_catch
      (id ← fresh_uuid;
       createdOrder ← prisma (order_create id buyer);
       try_catch
         (inventoryResponse ←
            axios peer (GetInventory (order_id createdOrder) [productId]);
          if bool_decide (res_status inventoryResponse ≠ 200)
             || negb (body_isAvailable (res_body inventoryResponse))
          then
            send 400 (BError ("Product " +:+ productId +:+ " not available"));;
            return_
          else mret ())
         (send 500 (BError "Internal Server Error while calling inventory Endpoint");;
          return_);;
       trackerId ←
         try_catch
           (createTrackerResponse ←
              axios peer (PostTrackCreate (order_id createdOrder));
            if bool_decide (res_status createTrackerResponse ≠ 201) then
              send 400 (BError ("Failed to create tracker for order "
                                +:+ order_id createdOrder));;
              return_
            else mret (body_trackerId (res_body createTrackerResponse)))
           (send 500 (BError "Internal Server Error while calling create tracker Endpoint");;
            return_);
       settle createdOrder productId trackerId;;
       axios peer (PatchTrackUpdate trackerId "paid");;
       send 201 (BOrder "Order Created and successfully paid" createdOrder))
      (send 500 (BError "Internal Server Error while creating order");;
       return_).
End routes.

(** [POST /api/v2/order]: nothing in it catches; what it throws leaves
    the handler (Express 4 does not look at the promise of an async
    handler), and nothing is written to the client. *)
Definition create_async (productId : string) : M unit :=
  if falsy productId then
    send 400 (BError "productId is required");; return_
  else
    id ← fresh_uuid;
    createdOrder ← prisma (order_create id buyer);
    ch ← read_channel;
    match ch with
    | ChUndefined => throw
    | _ => mret ()
    end;;
    sent ← publish (OrderCreated (order_id createdOrder) [productId]);
    if sent : bool then send 201 (BOrder "Order Created" createdOrder)
    else send 500 (BError "Internal Server Error while sending message to order queue").

End Orders.

(** ** The services as each other's peers *)

(** An identifier is put in the URL of a call as it is,
    [`${url}/update/${orderId}`], and the service called reads it back
    as a path parameter.  It comes back unchanged when it is made of
    letters, digits and hyphens, as the identifiers that [uuid()]
    generates are, and is not empty; nothing is said here of the calls
    made with other identifiers. *)
Definition plain_char (c : Ascii.ascii) : bool :=
  let n := Ascii.nat_of_ascii c in
  ((48 <=? n) && (n <=? 57) || (65 <=? n) && (n <=? 90)
   || (97 <=? n) && (n <=? 122) || (n =? 45))%nat.

Definition url_safe (id : string) : bool :=
  negb (falsy id) && forallb plain_char (String.list_ascii_of_string id).

(** The inventory and tracking services call nobody. *)
Definition backends (req : HttpRequest) : World → option HttpResponse * World :=
  match req with
  | GetInventory orderId productIds => serve (Inventory.check orderId productIds)
  | PatchInventoryUpdate orderId => serve (Inventory.update orderId)
  | PostTrackCreate orderId => serve (Tracking.create orderId)
  | PatchTrackUpdate trackerId newStatus => serve (Tracking.update trackerId newStatus)
  | PostPayment _ => λ w, (None, w)
  end.

(** The payment service calls the inventory service; the order service
    calls all three. *)
Definition network (req : HttpRequest) : World → option HttpResponse * World :=
  match req with
  | PostPayment orderId => serve (Payment.pay backends orderId)
  | _ => backends req
  end.


Definition track_step (st : Tracking.Step) (w : World) : World :=
  world (run (Tracking.handler st) (fresh ChUndefined w)).

Definition track_response (st : Tracking.Step) (w : World) : option HttpResponse :=
  response_of (trace (run (Tracking.handler st) (fresh ChUndefined w))).

Definition terminal (status : string) : Prop := status = "paid" ∨ status = "canceled".

(** The relation [orderId @unique] as a property of the table. *)
Definition one_tracker_per_order (d : Db) : Prop :=
  NoDup (track_orderId <$> orderTracks d).

(** A sample store: one buyer, one order, its tracker already [paid]. *)
Definition sample_uuid (n : nat) : string := "uuid-" +:+ pretty n.
Definition paid_db : Db :=
  mkDb [mkOrder "o1" "u1" []] [mkUser "u1" 10%float] []
       [mkOrderTrack "t1" "o1" "paid"] table_order.
Definition paid_world : World := mkWorld paid_db [] sample_uuid 0.
Definition created_world : World :=
  mkWorld (set_orderTracks (λ _, [mkOrderTrack "t1" "o1" "created"]) paid_db)
          [] sample_uuid 0.

(** What a step writes over the status of tracker [t], if it addresses it. *)
Definition overwrites (st : Tracking.Step) (t : OrderTrack) : option string :=
  match st with
  | Tracking.Deliver (DMsg (InventoryChecked orderId false)) =>
      if bool_decide (track_orderId t = orderId) then Some "canceled" else None
  | Tracking.Deliver (DMsg (PaymentProcessed orderId status)) =>
      if bool_decide (track_orderId t = orderId)
      then Some (if bool_decide (status = "success") then "paid" else "canceled")
      else None
  | Tracking.Update trackerId newStatus =>
      if bool_decide (track_id t = trackerId) then Some newStatus else None
  | _ => None
  end.

(** ** The inventory check, in the specification's words *)

(** How many times an identity is requested. *)
Definition requested (id : string) (productIds : list string) : nat :=
  length (filter (λ x, x = id) productIds).

(** "every requested product identity exists among the stored Product
    rows and, for each, the requested count ≤ that product's current
    stockAmount" *)
Definition every_requested_in_stock (productIds : list string) (d : Db) : Prop :=
  ∀ id, id ∈ productIds →
    ∃ p, p ∈ products d ∧ product_id p = id
         ∧ Z.of_nat (requested id productIds) ≤ product_stockAmount p.

(** Some stored row is requested, and each stored row that is holds the
    requested count. *)
Definition matched_in_stock (productIds : list string) (d : Db) : Prop :=
  matched productIds d ≠ []
  ∧ ∀ p, p ∈ matched productIds d →
      Z.of_nat (requested (product_id p) productIds) ≤ product_stockAmount p.


(** A store with one product, [p1], and one order. *)
Definition shop_db : Db :=
  mkDb [mkOrder "o1" "u1" []] [mkUser "u1" 10%float]
       [mkProducts "p1" 1%float 5] [] table_order.
Definition shop_world : World := mkWorld shop_db [] sample_uuid 0.

(** The same store, its product named [toString]. *)
Definition named_db : Db :=
  mkDb [mkOrder "o1" "u1" []] [mkUser "u1" 10%float]
       [mkProducts "toString" 1%float 5] [] table_order.
Definition named_world : World := mkWorld named_db [] sample_uuid 0.

(** A store with one order to settle: [p1] is connected to [o1]. *)
Definition checkout_db : Db :=
  mkDb [mkOrder "o1" "u1" ["p1"]] [mkUser "u1" 10%float]
       [mkProducts "p1" 1%float 5] [mkOrderTrack "t1" "o1" "created"] table_order.
Definition checkout_world : World := mkWorld checkout_db [] sample_uuid 0.

(** A store where settling overflows: the buyer holds the greatest
    balance a binary64 can and the connected product has the least
    price. *)
Definition refund_db : Db :=
  mkDb [mkOrder "o1" "u1" ["p1"]] [mkUser "u1" 0x1.fffffffffffffp+1023%float]
       [mkProducts "p1" (-0x1.fffffffffffffp+1023)%float 5] [] table_order.
Definition refund_world : World := mkWorld refund_db [] sample_uuid 0.

(** ** The payment step of the orchestration *)

(** The promise of a call rejects: nothing came back, or a status of 500
    or more. *)
Definition rejects (answer : option HttpResponse) : bool :=
  match answer with
  | Some r => negb (res_status r <? 500)
  | None => true
  end.

(** The payment service reports failure. *)
Definition payment_refused (r : HttpResponse) : Prop :=
  res_status r ≠ 200 ∨ body_status (res_body r) ≠ Some "success".

(** The buyer of the order service, with no money and one product in
    stock. *)
Definition broke_world : World :=
  mkWorld (mkDb [] [mkUser Orders.buyer 0%float] [mkProducts "P" 1%float 10] []
                table_order)
          [] sample_uuid 0.

(** ** The orchestration's calls *)

(** The route a call goes to; the empty text for an effect that is not a
    call. *)
Definition route (e : Effect) : string :=
  match e with
  | Called (GetInventory _ _) _ => "GET /api/v1/inventory"
  | Called (PatchInventoryUpdate _) _ => "PATCH /api/v1/inventory/update"
  | Called (PostTrackCreate _) _ => "POST /api/v1/track/create"
  | Called (PatchTrackUpdate _ _) _ => "PATCH /api/v1/track/update"
  | Called (PostPayment _) _ => "POST /api/v1/payment"
  | _ => ""
  end.

(** The calls of a complete orchestration, in order. *)
Definition saga : list string :=
  ["GET /api/v1/inventory"; "POST /api/v1/track/create";
   "POST /api/v1/payment"; "PATCH /api/v1/track/update"].

(** ** The choreography *)

(** The messages a handler handed to the exchange. *)
Definition published (t : list Effect) : list QueueMessage :=
  omap (λ e, match e with Published m => Some m | _ => None end) t.

(** [connectRabbit] binds the three queues of [config.rabbitmq.queues] to
    the fanout exchange, and each of the three services consumes one of
    them, on a channel of its own. *)
Definition consumers : list (Delivery → M unit) :=
  [Tracking.consumer; Inventory.consumer; Payment.consumer].

(** A message of the exchange reaches every queue.  Here the services
    handle it one after the other, in the order [handlers], each to
    completion; what they publish is collected in that order. *)
Definition deliver (handlers : list (Delivery → M unit)) (m : QueueMessage) (w : World)
  : World * list QueueMessage :=
  foldl (λ acc consumer,
           let s := run (consumer (DMsg m)) (fresh (ChOpen true) acc.1) in
           (world s, acc.2 ++ published (trace s)))
        (w, []) handlers.

(** Messages are delivered in the order they were published, one for
    each entry of [schedule], which says in what order the services get
    to it; what is left undelivered is returned. *)
Fixpoint drain (schedule : list (list (Delivery → M unit)))
    (queue : list QueueMessage) (w : World) : World * list QueueMessage :=
  match schedule, queue with
  | handlers :: later, m :: rest =>
      let (w', out) := deliver handlers m w in
      drain later (rest ++ out) w'
  | _, _ => (w, queue)
  end.

(** [POST /api/v2/order] followed by the delivery of what it published. *)
Definition choreography (schedule : list (list (Delivery → M unit)))
    (productId : string) (w : World) : World * list QueueMessage :=
  let s := run (Orders.create_async productId) (fresh (ChOpen true) w) in
  drain schedule (published (trace s)) (world s).

(** * Proofs *)

(** ** Symbolic execution

    A handler is run on a state whose parts are variables by unfolding the
    monad and the queries and splitting on every test the code makes. *)

Create HintDb queries.
#[global] Hint Unfold order_findUnique orderTrack_findUnique orderTrack_create
  orderTrack_update_id orderTrack_update_orderId
  find_order find_user find_track find_track_of_order
  products_findMany order_connect_products products_decrement
  order_findUnique_priced user_decrement_balance order_create
  set_orders set_users set_products set_orderTracks with_status falsy : queries.

Create HintDb handlers.
#[global] Hint Unfold Tracking.consumer Tracking.create Tracking.update Tracking.get
  Tracking.handler track_step track_response
  Inventory.consumer Inventory.check Inventory.update Inventory.reserve
  Payment.consumer Payment.pay Orders.create Orders.settle Orders.create_async
  axios serve read_channel backends network : handlers.

Ltac unfold_m :=
  unfold mbind, M_bind, bind, mret, M_ret, ret, return_, throw, try_catch,
    send, publish, prisma, fresh_uuid, emit, set_world, set_db, set_faults,
    run, outcome, fresh in *.

(** The scrutinee that is not itself a match. *)
Ltac case_inner x :=
  lazymatch x with
  | context [match ?y with _ => _ end] => case_inner y
  | _ => destruct x eqn:?
  end.

Ltac exec :=
  repeat first [ progress cbn -[String.append fmap lookup filter matched
                                  Inventory.isAvailable Inventory.groupedProducts
                                  Inventory.held
                                  Payment.totalAmount attached_prices PrimFloat.ltb
                                  debit decremented connect overflows underflows]
               | progress unfold_m
               | progress autounfold with handlers queries
               | match goal with
                 | |- context [match ?x with _ => _ end] => case_inner x
                 end
               | match goal with
                 | H : bool_decide _ = true |- _ => apply bool_decide_eq_true_1 in H
                 | H : bool_decide _ = false |- _ => apply bool_decide_eq_false_1 in H
                 | H : _ && _ = true |- _ => apply andb_true_iff in H as [? ?]
                 | H : _ && _ = false |- _ => apply andb_false_iff in H as [?|?]
                 | H : _ || _ = true |- _ => apply orb_true_iff in H as [?|?]
                 | H : _ || _ = false |- _ => apply orb_false_iff in H as [? ?]
                 end
               | progress simplify_eq ].

(** ** Lists of rows *)

Lemma find_decide_None {A B} `{EqDecision B} (f : A → B) (b : B) (l : list A) :
  find (λ x, bool_decide (f x = b)) l = None → b ∉ f <$> l.
Proof.
  induction l as [|x l IH]; cbn; [by intros _ ?%elem_of_nil|].
  case_bool_decide; [done|].
  intros Hl [?|?]%elem_of_cons; [congruence|by apply IH].
Qed.

Lemma find_decide_Some {A B} `{EqDecision B} (f : A → B) (b : B) (l : list A) x :
  find (λ y, bool_decide (f y = b)) l = Some x → f x = b ∧ x ∈ l.
Proof.
  intros [Hin Hb%bool_decide_eq_true_1]%find_some. split; [done|].
  by apply list_elem_of_In.
Qed.

(** What a successful [find] says about the row it returns. *)
Ltac found :=
  repeat match goal with
         | H : find _ ?l = Some ?x |- _ =>
             lazymatch goal with
             | _ : x ∈ l |- _ => fail
             | _ => destruct (find_decide_Some _ _ _ _ H) as [? ?]
             end
         end.

Lemma find_decide_elem {A B} `{EqDecision B} (f : A → B) (l : list A) x :
  x ∈ l → is_Some (find (λ y, bool_decide (f y = f x)) l).
Proof.
  induction 1 as [|x y l Hx IH]; cbn.
  - rewrite bool_decide_eq_true_2; by eauto.
  - case_bool_decide; eauto.
Qed.

Lemma fmap_proj {A B} (g : A → B) (h : A → A) (l : list A) :
  (∀ x, g (h x) = g x) → g <$> (h <$> l) = g <$> l.
Proof.
  intros Hg. rewrite <- list_fmap_compose. apply list_fmap_ext.
  intros _ x _. apply Hg.
Qed.

Lemma NoDup_snoc_proj {A B} `{EqDecision B} (f : A → B) (l : list A) x :
  NoDup (f <$> l) →
  find (λ y, bool_decide (f y = f x)) l = None →
  NoDup (f <$> l ++ [x]).
Proof.
  intros Hl Hx. rewrite fmap_app. apply NoDup_app. split_and!; [done| |apply NoDup_singleton].
  intros b Hb [->|[]%elem_of_nil]%elem_of_cons.
  by apply (find_decide_None f (f x) l).
Qed.

(** ** Binary64 *)

Ltac split_signs := repeat match goal with b : bool |- _ => destruct b end.

Lemma SFcompare_swap x y :
  SFcompare y x = option_map CompOpp (SFcompare x y).
Proof.
  destruct x, y; split_signs; cbn; try done.
  all: rewrite (Z.compare_antisym e e0); destruct (e ?= e0); cbn; try done.
  all: by rewrite (Pos.compare_cont_antisym m m0 Eq).
Qed.


(** On numbers, [x < y] is the negation of [y ≤ x]. *)
Lemma float_ltb_leb (x y : float) :
  is_nan x = false → is_nan y = false → (x <? y)%float = negb (y <=? x)%float.
Proof.
  unfold is_nan. intros Hx Hy.
  rewrite FloatAxioms.eqb_spec in Hx, Hy.
  rewrite FloatAxioms.ltb_spec, FloatAxioms.leb_spec.
  unfold SFeqb, SFltb, SFleb in *.
  rewrite (SFcompare_swap (Prim2SF x) (Prim2SF y)).
  destruct (Prim2SF x), (Prim2SF y); try done.
  all: unfold SFcompare; cbn [option_map]; by repeat case_match.
Qed.


(** ** The tracking service *)

Section tracking.
Implicit Types (w : World) (st : Tracking.Step) (t : OrderTrack).

(** A row of the table stays where it is and keeps its identity and its
    order; its status is the one it had or the one the step carries. *)
Lemma track_step_row w st i t :
  orderTracks (db w) !! i = Some t →
  ∃ t', orderTracks (db (track_step st w)) !! i = Some t'
        ∧ track_id t' = track_id t
        ∧ track_orderId t' = track_orderId t
        ∧ (track_status t' = track_status t
           ∨ overwrites st t = Some (track_status t')).
Proof.
  intros Hi. destruct w as [[os us ps ts rk] fs u n]. cbn in Hi.
  destruct st as [[| | | | |[o ids|o [|]|o status]|[| |]]|o|tid ns|tid]; exec.
  all: try (eexists; split; [exact Hi|]; tauto).
  all: try (rewrite lookup_app_l by (by eapply lookup_lt_Some);
            eexists; split; [exact Hi|]; tauto).
  all: eexists; (split; [by rewrite list_lookup_fmap, Hi|]).
  all: repeat case_bool_decide; cbn; try tauto; naive_solver.
Qed.

(** With no storage fault, a step that addresses the row does write. *)
Lemma track_step_writes w st i t s' :
  orderTracks (db w) !! i = Some t →
  overwrites st t = Some s' →
  faults w = [] → track_id t ≠ "" → s' ≠ "" →
  ∃ t', orderTracks (db (track_step st w)) !! i = Some t'
        ∧ track_status t' = s'.
Proof.
  intros Hi Ho Hf Hid Hs. destruct w as [[os us ps ts rk] fs u n]. cbn in Hi, Hf.
  assert (Hin : t ∈ ts) by (by eapply list_elem_of_lookup_2).
  pose proof (find_decide_elem track_orderId ts t Hin) as [? Ho1].
  pose proof (find_decide_elem track_id ts t Hin) as [? Ho2].
  destruct st as [[| | | | |[o ids|o [|]|o status]|[| |]]|o|tid ns|tid];
    cbn in Ho; try done; repeat case_match; simplify_eq; exec.
  all: try done.
  all: try (eexists; split; [by rewrite list_lookup_fmap, Hi|]).
  all: try (rewrite bool_decide_eq_true_2 by done; done).
  all: try (case_bool_decide; simplify_eq; done).
Qed.

End tracking.

(** C1, as the specification states it, fails: a tracker that is [paid]
    becomes [canceled] when a [payment.processed] event with status
    [failed] is delivered for its order. *)
Lemma paid_tracker_gets_canceled :
  let st := Tracking.Deliver (DMsg (PaymentProcessed "o1" "failed")) in
  orderTracks (db paid_world) !! 0%nat = Some (mkOrderTrack "t1" "o1" "paid")
  ∧ terminal "paid"
  ∧ orderTracks (db (track_step st paid_world)) !! 0%nat
    = Some (mkOrderTrack "t1" "o1" "canceled")
  ∧ "canceled" ≠ "paid".
Proof.
  cbv zeta. split_and!; [reflexivity | by left | vm_compute; reflexivity | discriminate].
Qed.

(** C1, amended: a tracker that has reached a terminal status stays in a
    terminal status under every delivery and every request whose
    [newStatus] is ['paid'] or ['canceled'].  Its status is not fixed: it
    is unchanged by a step that does not address it, and a step that
    addresses it ([inventory.checked] with [isAvailable = false] or
    [payment.processed] for its order, an update of its identifier)
    writes the status that step carries, whatever the status was. *)
Theorem terminal_status_stays_terminal w st i t :
  orderTracks (db w) !! i = Some t →
  terminal (track_status t) →
  (∀ trackerId newStatus,
     st = Tracking.Update trackerId newStatus → terminal newStatus) →
  ∃ t', orderTracks (db (track_step st w)) !! i = Some t'
        ∧ track_id t' = track_id t
        ∧ track_orderId t' = track_orderId t
        ∧ terminal (track_status t')
        ∧ (overwrites st t = None → track_status t' = track_status t)
        ∧ (∀ s', overwrites st t = Some s' →
             (track_status t' = track_status t ∨ track_status t' = s')
             ∧ (faults w = [] → track_id t ≠ "" → track_status t' = s')).
Proof.
  intros Hi Ht Hst.
  destruct (track_step_row w st i t Hi) as (t' & Hi' & Hid & Ho & Hs).
  assert (Hterm : ∀ s', overwrites st t = Some s' → terminal s').
  { intros s' Hw. destruct st as [[| | | | |[o ids|o [|]|o status]|[| |]]|o|tid ns|tid];
      cbn in Hw; try done; repeat case_bool_decide; simplify_eq;
      try (by left); try (by right). by eapply Hst. }
  exists t'. split_and!; try done.
  - destruct Hs as [Hs|Hs]; [by rewrite Hs|by eapply Hterm].
  - intros Hn. destruct Hs as [Hs|Hs]; [done|congruence].
  - intros s' Hw. split.
    + destruct Hs as [Hs|Hs]; [by left|right; congruence].
    + intros Hf Hne.
      destruct (track_step_writes w st i t s' Hi Hw Hf Hne) as (t'' & Hi'' & <-).
      * apply Hterm in Hw as [->| ->]; discriminate.
      * congruence.
Qed.

Lemma terminal_status_stays_terminal_witness :
  ∃ t', orderTracks
          (db (track_step (Tracking.Update "t1" "canceled") paid_world)) !! 0%nat
        = Some t'
        ∧ track_id t' = "t1"
        ∧ track_orderId t' = "o1"
        ∧ terminal (track_status t')
        ∧ (overwrites (Tracking.Update "t1" "canceled")
             (mkOrderTrack "t1" "o1" "paid") = None → track_status t' = "paid")
        ∧ (∀ s', overwrites (Tracking.Update "t1" "canceled")
                   (mkOrderTrack "t1" "o1" "paid") = Some s' →
             (track_status t' = "paid" ∨ track_status t' = s')
             ∧ (faults paid_world = [] → "t1" ≠ "" → track_status t' = s')).
Proof.
  apply (terminal_status_stays_terminal paid_world
           (Tracking.Update "t1" "canceled") 0 (mkOrderTrack "t1" "o1" "paid")).
  - reflexivity.
  - left; reflexivity.
  - intros ? ? [= <- <-]. right; reflexivity.
Defined.

(** C3 at a failing input: the tracker [t1] is [created] and the request
    asks for the status ["shipped"].  The client is answered 400, and the
    stored status is ["shipped"]. *)
Theorem update_rejected_status_is_stored :
  let st := Tracking.Update "t1" "shipped" in
  find_track "t1" (db created_world) = Some (mkOrderTrack "t1" "o1" "created")
  ∧ track_response st created_world
    = Some (mkResponse 400 (BError "newStatus must be either 'paid' or 'canceled'"))
  ∧ find_track "t1" (db (track_step st created_world))
    = Some (mkOrderTrack "t1" "o1" "shipped").
Proof. cbv zeta. split_and!; vm_compute; reflexivity. Qed.

(** C6: the tracking service keeps at most one tracker per order.  Every
    delivery and every request preserves the uniqueness of [orderId] in
    the table; and when the order already has a tracker, a create (the
    request or the [order.created] event) leaves the table as it is, the
    request being answered with a status other than 201. *)
Theorem one_tracker_per_order_preserved w st :
  one_tracker_per_order (db w) →
  one_tracker_per_order (db (track_step st w))
  ∧ (∀ orderId,
       is_Some (find_track_of_order orderId (db w)) →
       (∀ productIds,
          orderTracks (db (track_step
             (Tracking.Deliver (DMsg (OrderCreated orderId productIds))) w))
          = orderTracks (db w))
       ∧ orderTracks (db (track_step (Tracking.Create orderId) w))
         = orderTracks (db w)
       ∧ ∃ r, track_response (Tracking.Create orderId) w = Some r
              ∧ res_status r ≠ 201).
Proof.
  unfold one_tracker_per_order. intros Hu.
  destruct w as [[os us ps ts rk] fs u n]. cbn in Hu. split.
  - destruct st as [[| | | | |[o ids|o [|]|o status]|[| |]]|o|tid ns|tid]; exec.
    all: try done.
    all: try (by apply (NoDup_snoc_proj track_orderId)).
    all: rewrite fmap_proj; [done|]; intros x; by case_bool_decide.
  - intros orderId [t Ht]. unfold find_track_of_order in Ht. cbn in Ht.
    repeat split.
    + intros ids. exec; congruence.
    + exec; try done. all: found; subst; congruence.
    + exec; try (eexists; (split; [done|]); done). all: found; subst; congruence.
Qed.

Lemma one_tracker_per_order_preserved_witness :
  one_tracker_per_order (db (track_step (Tracking.Create "o1") paid_world))
  ∧ (∀ orderId,
       is_Some (find_track_of_order orderId (db paid_world)) →
       (∀ productIds,
          orderTracks (db (track_step
             (Tracking.Deliver (DMsg (OrderCreated orderId productIds))) paid_world))
          = orderTracks (db paid_world))
       ∧ orderTracks (db (track_step (Tracking.Create orderId) paid_world))
         = orderTracks (db paid_world)
       ∧ ∃ r, track_response (Tracking.Create orderId) paid_world = Some r
              ∧ res_status r ≠ 201).
Proof.
  apply (one_tracker_per_order_preserved paid_world (Tracking.Create "o1")).
  apply NoDup_singleton.
Defined.

(** ** The inventory service *)

Section inventory.
Import Inventory.

Lemma grouped_fold (acc : gmap string Held) productIds id :
  acc !! "__proto__" = None →
  held (foldl (λ acc id,
                 let v := match held acc id with
                          | None => Count 1
                          | Some (Count n) => Count (n + 1)
                          | Some NotANumber => NotANumber
                          end in
                 if bool_decide (id = "__proto__") then acc else <[id := v]> acc)
              acc productIds) id
  = match requested id productIds, held acc id with
    | O, v => v
    | S k, None => Some (Count (Z.of_nat (S k)))
    | S k, Some (Count n) => Some (Count (n + Z.of_nat (S k)))
    | S k, Some NotANumber => Some NotANumber
    end.
Proof.
  unfold requested. revert acc.
  induction productIds as [|x l IH]; intros acc Hacc; [done|].
  cbn [foldl]. cbv zeta. rewrite filter_cons.
  destruct (bool_decide (x = "__proto__")) eqn:Hx.
  - apply bool_decide_eq_true_1 in Hx. subst x. rewrite IH by done.
    case_decide as Hid; [|done]. subst id. cbn [length].
    unfold held. rewrite Hacc. cbn.
    by destruct (length (filter _ l)).
  - apply bool_decide_eq_false_1 in Hx.
    rewrite IH by (by rewrite lookup_insert_ne).
    case_decide as Hid.
    + subst x. cbn [length].
      match goal with |- context [<[id := ?v]> acc] => set (held' := v) end.
      assert (Hv : held (<[id := held']> acc) id = Some held')
        by (unfold held; by rewrite lookup_insert_eq).
      rewrite Hv. subst held'.
      destruct (held acc id) as [[n|]|], (length (filter _ l)); cbn -[Z.of_nat];
        try done; do 2 f_equal; lia.
    + match goal with |- context [<[x := ?v]> acc] => set (held' := v) end.
      assert (Hv : held (<[x := held']> acc) id = held acc id)
        by (unfold held; by rewrite lookup_insert_ne).
      by rewrite Hv.
Qed.

(** Reading the object built by [reduce]: for an identity that is a member
    of [Object.prototype], something that is not a number, requested or
    not; for any other identity, the number of times it is requested, and
    [undefined] when it is not. *)
Lemma groupedProducts_lookup productIds id :
  held (groupedProducts productIds) id
  = if bool_decide (id ∈ object_prototype) then Some NotANumber
    else match requested id productIds with
         | O => None
         | S k => Some (Count (Z.of_nat (S k)))
         end.
Proof.
  unfold groupedProducts. rewrite grouped_fold by done.
  assert (Hempty : held ∅ id
                   = if bool_decide (id ∈ object_prototype)
                     then Some NotANumber else None)
    by (unfold held; by rewrite lookup_empty).
  rewrite Hempty.
  case_bool_decide; by destruct (requested id productIds).
Qed.

Lemma requested_pos id productIds :
  id ∈ productIds → (0 < requested id productIds)%nat.
Proof.
  unfold requested. intros Hin.
  assert (Hf : id ∈ filter (λ x, x = id) productIds)
    by (by apply list_elem_of_filter).
  destruct (filter _ productIds); [by apply elem_of_nil in Hf|cbn; lia].
Qed.

Lemma isAvailable_matched productIds d :
  isAvailable (matched productIds d) (groupedProducts productIds) = true
  ↔ ∀ p, p ∈ matched productIds d →
      (product_id p ∉ object_prototype)
      ∧ (Z.of_nat (requested (product_id p) productIds) ≤ product_stockAmount p).
Proof.
  unfold isAvailable. rewrite forallb_forall. setoid_rewrite <- list_elem_of_In.
  apply forall_proper; intros p.
  apply forall_proper; intros [Hp%requested_pos _]%list_elem_of_filter.
  rewrite groupedProducts_lookup.
  case_bool_decide as Hproto; [split; [done|by intros [? _]]|].
  destruct (requested _ _) as [|k]; [lia|].
  rewrite andb_true_iff, bool_decide_eq_true, Z.leb_le. split; [tauto|].
  intros [_ ?]; split; [lia|done].
Qed.

(** Connecting the matched rows to an existing order is accepted. *)
Lemma connect_matched_accepted productIds d :
  forallb (λ id, bool_decide (id ∈ product_id <$> products d))
          (product_id <$> matched productIds d) = true.
Proof.
  rewrite forallb_forall. intros id [p [-> Hp]]%list_elem_of_In%list_elem_of_fmap.
  apply bool_decide_eq_true. apply list_elem_of_fmap_2.
  by apply list_elem_of_filter in Hp as [_ ?].
Qed.

Lemma matched_nil d : matched [] d = [].
Proof.
  unfold matched. induction (products d) as [|p l IH]; [done|].
  rewrite filter_cons. case_decide as Hp; [by apply elem_of_nil in Hp|done].
Qed.



End inventory.


(** A stored product named [toString], five in stock and requested once:
    every requested identity is stored with the requested count in stock,
    and both entry points report [isAvailable = false]. *)
Lemma prototype_name_is_unavailable :
  every_requested_in_stock ["toString"] (db named_world)
  ∧ response_of (trace (run (Inventory.check "o1" ["toString"])
                            (fresh ChUndefined named_world)))
    = Some (mkResponse 200 (BCheckInventory "o1" false))
  ∧ trace (run (Inventory.consumer (DMsg (OrderCreated "o1" ["toString"])))
               (fresh (ChOpen true) named_world))
    = [Published (InventoryChecked "o1" false)].
Proof.
  split_and!; [|vm_compute; reflexivity..].
  intros id [->|[]%elem_of_nil]%elem_of_cons.
  exists (mkProducts "toString" 1%float 5). split_and!; [apply list_elem_of_here|done|].
  vm_compute. discriminate.
Qed.



(** C8, as the specification states it, fails for the event handler: when
    no stored row matches, it publishes nothing, whereas an order whose
    rows are found short of stock is answered with [inventory.checked]
    carrying [isAvailable = false]. *)
Lemma nothing_published_when_nothing_matches :
  matched ["ghost"] (db shop_world) = []
  ∧ trace (run (Inventory.consumer (DMsg (OrderCreated "o1" ["ghost"])))
               (fresh (ChOpen true) shop_world))
    = []
  ∧ trace (run (Inventory.consumer
                  (DMsg (OrderCreated "o1" ["p1"; "p1"; "p1"; "p1"; "p1"; "p1"])))
               (fresh (ChOpen true) shop_world))
    = [Published (InventoryChecked "o1" false)].
Proof. split_and!; vm_compute; reflexivity. Qed.

(** C8, amended: when no stored row matches the requested identities, the
    event handler returns without publishing anything and without writing
    to the store, whatever the channel and the store do; the synchronous
    handler, given both fields and the store answering, responds 404 and
    writes nothing to the store either. *)
Theorem nothing_matched w orderId productIds :
  matched productIds (db w) = [] →
  (∀ ch, let s := run (Inventory.consumer (DMsg (OrderCreated orderId productIds)))
                      (fresh ch w) in
         trace s = [] ∧ db (world s) = db w)
  ∧ (faults w = [] → orderId ≠ "" → productIds ≠ [] →
     ∀ ch, let s := run (Inventory.check orderId productIds) (fresh ch w) in
           trace s = [Sent 404 (BError "Products not found")]
           ∧ db (world s) = db w).
Proof.
  intros Hm. destruct w as [d fs u n]. cbn in Hm. split.
  - intros ch. exec; rewrite ?Hm in *; done.
  - intros Hf Hid Hp ch. cbn in Hf. subst fs. exec; rewrite ?Hm in *; try done.
    all: by destruct productIds.
Qed.

Lemma nothing_matched_witness :
  (∀ ch, let s := run (Inventory.consumer (DMsg (OrderCreated "o1" ["ghost"])))
                      (fresh ch shop_world) in
         trace s = [] ∧ db (world s) = db shop_world)
  ∧ (faults shop_world = [] → "o1" ≠ "" → ["ghost"] ≠ [] →
     ∀ ch, let s := run (Inventory.check "o1" ["ghost"]) (fresh ch shop_world) in
           trace s = [Sent 404 (BError "Products not found")]
           ∧ db (world s) = db shop_world).
Proof. apply (nothing_matched shop_world "o1" ["ghost"]). reflexivity. Defined.

(** ** The order in which rows come back *)

Section positions.
Implicit Types (rank : string → nat) (l : list Products).

Lemma placed_Permutation rank p l : placed rank p l ≡ₚ p :: l.
Proof.
  induction l as [|q l IH]; [done|]. cbn.
  destruct (_ <=? _)%nat; [done|]. rewrite IH. apply Permutation_swap.
Qed.

(** The rows handed back are the rows, each once. *)
Lemma by_position_Permutation rank l : by_position rank l ≡ₚ l.
Proof.
  induction l as [|p l IH]; [done|].
  cbn. by rewrite placed_Permutation, IH.
Qed.

Let ranked rank (p q : Products) : Prop :=
  (rank (product_id p) ≤ rank (product_id q))%nat.

Lemma placed_Sorted rank p l :
  Sorted (ranked rank) l → Sorted (ranked rank) (placed rank p l).
Proof.
  induction 1 as [|q l Hl IH Hq]; [by repeat constructor|].
  cbn. destruct (Nat.leb_spec (rank (product_id p)) (rank (product_id q))) as [Hle|Hlt].
  - by repeat constructor.
  - constructor; [done|].
    destruct l as [|q' l]; cbn in *.
    + constructor. unfold ranked. lia.
    + destruct (_ <=? _)%nat; constructor; [unfold ranked; lia|by inv Hq].
Qed.

Lemma by_position_Sorted rank l : Sorted (ranked rank) (by_position rank l).
Proof.
  induction l as [|p l IH]; [constructor|]. by apply placed_Sorted.
Qed.

(** Where an identity stands in a list of identities. *)
Let standing (ids : list string) (id : string) : nat :=
  default 0%nat (fst <$> list_find (λ x, x = id) ids).

Lemma standing_here id ids : standing (id :: ids) id = 0%nat.
Proof. unfold standing. cbn. by rewrite decide_True. Qed.

Lemma standing_further x id ids :
  x ≠ id → id ∈ ids → standing (x :: ids) id = S (standing ids id).
Proof.
  intros Hx Hin. unfold standing. cbn. rewrite decide_False by done.
  destruct (list_find_elem_of (λ y, y = id) ids id Hin eq_refl) as [[i y] Hf].
  by rewrite Hf.
Qed.

Lemma standing_inj ids a b :
  a ∈ ids → b ∈ ids → standing ids a = standing ids b → a = b.
Proof.
  induction ids as [|x ids IH]; [by intros ?%elem_of_nil|].
  intros Ha Hb.
  destruct (decide (x = a)) as [Hxa|Hxa], (decide (x = b)) as [Hxb|Hxb].
  - intros _. congruence.
  - subst x. rewrite standing_here. apply elem_of_cons in Hb as [->|Hb]; [done|].
    by rewrite (standing_further a b ids Hxb Hb).
  - subst x. rewrite standing_here. apply elem_of_cons in Ha as [->|Ha]; [done|].
    by rewrite (standing_further b a ids Hxa Ha).
  - apply elem_of_cons in Ha as [->|Ha]; [done|].
    apply elem_of_cons in Hb as [->|Hb]; [done|].
    rewrite (standing_further x a ids Hxa Ha), (standing_further x b ids Hxb Hb).
    intros [= ?]. by apply IH.
Qed.

Lemma StronglySorted_among {A} (Ra Rb : relation A) (l : list A) :
  (∀ a b, a ∈ l → b ∈ l → Ra a b → Rb a b) →
  StronglySorted Ra l → StronglySorted Rb l.
Proof.
  intros HR Hl. induction Hl as [|x l Hl IH Hx]; constructor.
  - apply IH. intros a b Ha Hb. apply HR; by apply elem_of_cons; right.
  - rewrite Forall_forall in *. intros y Hy. apply HR; [by left|by right|by apply Hx].
Qed.

Lemma in_order_of_standing l :
  NoDup (product_id <$> l) →
  StronglySorted (ranked (standing (product_id <$> l))) l.
Proof.
  induction l as [|p l IH]; [constructor|].
  rewrite fmap_cons. intros [Hp Hl]%NoDup_cons. constructor.
  - eapply StronglySorted_among, (IH Hl). unfold ranked. intros a q Ha Hq Hle.
    rewrite !standing_further; [lia| |by apply list_elem_of_fmap_2| |by apply list_elem_of_fmap_2].
    all: intros Heq; apply Hp; rewrite Heq; by apply list_elem_of_fmap_2.
  - apply Forall_forall. intros q _. unfold ranked. rewrite standing_here. lia.
Qed.

(** Nothing is assumed of the order: every arrangement of rows whose
    identities differ is the one some ranking hands back. *)
Lemma by_position_any_order l l' :
  NoDup (product_id <$> l) → l' ≡ₚ l →
  ∃ rank, by_position rank l = l'.
Proof.
  intros Hl Hperm.
  assert (Hl' : NoDup (product_id <$> l')) by (by rewrite Hperm).
  exists (standing (product_id <$> l')).
  assert (Htrans : Transitive (ranked (standing (product_id <$> l'))))
    by (intros x y z; unfold ranked; lia).
  apply (Sorted_unique_strong (ranked (standing (product_id <$> l')))).
  - intros p q Hp Hq Hpq Hqp. unfold ranked in *.
    rewrite by_position_Permutation, <- Hperm in Hp.
    assert (Hid : product_id p = product_id q).
    { apply (standing_inj (product_id <$> l')); [by apply list_elem_of_fmap_2..|lia]. }
    apply list_elem_of_lookup in Hp as [i Hi], Hq as [j Hj].
    assert (i = j); [|congruence].
    apply (NoDup_lookup _ i j (product_id p) Hl'); rewrite list_lookup_fmap.
    + by rewrite Hi.
    + by rewrite Hj, Hid.
  - apply by_position_Sorted.
  - apply StronglySorted_Sorted. by apply in_order_of_standing.
  - by rewrite by_position_Permutation.
Qed.

(** The order is not idle: with the binary64 prices nearest to 0.1, 0.2
    and 0.3 the total is one number in table order and another in the
    reverse order. *)
Lemma total_depends_on_order :
  let ps := [mkProducts "a" 0x1.999999999999ap-4%float 1;
             mkProducts "b" 0x1.999999999999ap-3%float 1;
             mkProducts "c" 0x1.3333333333333p-2%float 1] in
  let backwards id :=
    if bool_decide (id = "a") then 2%nat
    else if bool_decide (id = "b") then 1%nat else 0%nat in
  (Payment.totalAmount (product_price <$> by_position table_order ps)
   =? Payment.totalAmount (product_price <$> by_position backwards ps))%float
  = false.
Proof. vm_compute. reflexivity. Qed.

End positions.

(** ** The payment service *)

Section payment.
Import Payment.

(** With the store answering, settlement over HTTP: the state it leaves. *)
Lemma pay_run w ch orderId o u :
  faults w = [] → orderId ≠ "" →
  find_order orderId (db w) = Some o →
  find_user (order_userId o) (db w) = Some u →
  let total := totalAmount (attached_prices o (db w)) in
  let updated status body := Called (PatchInventoryUpdate orderId)
                               (Some (mkResponse status body)) in
  run (pay backends orderId) (fresh ch w)
  = if (user_balance u <? total)%float then
      mkSt w ch [Sent 400 (BPaymentProcessed orderId "failed")]
    else if underflows (order_products o) (products (db w)) then
      mkSt w ch
           [updated 500 (BError "Internal Server Error while calling update inventory Endpoint");
            Sent 500 (BError "Internal Server Error while calling inventory Endpoint")]
    else if overflows (user_balance u) total then
      mkSt (set_db (set_products (fmap (decremented (order_products o)))) w) ch
           [updated 200 (BMsg "Inventory updated successfully");
            Sent 500 (BError "Internal Server Error while processing payment")]
    else
      mkSt (set_db (λ d, set_users (fmap (debit (order_userId o) total))
                           (set_products (fmap (decremented (order_products o))) d)) w)
           ch
           [updated 200 (BMsg "Inventory updated successfully");
            Sent 200 (BPaymentProcessed (order_id o) "success")].
Proof.
  intros Hf Hid Ho Hu. destruct w as [d fs u0 n]. cbn in Hf, Ho, Hu. subst fs.
  unfold find_order, find_user in *. cbv zeta. exec; congruence.
Qed.

(** What the payment consumer hands to the exchange: nothing gets through
    a channel that is not open. *)
Lemma settle_run w ch orderId o u :
  faults w = [] →
  find_order orderId (db w) = Some o →
  find_user (order_userId o) (db w) = Some u →
  let total := totalAmount (attached_prices o (db w)) in
  let reported status :=
    match ch with
    | ChOpen _ => [Published (PaymentProcessed orderId status)]
    | _ => []
    end in
  run (consumer (DMsg (InventoryChecked orderId true))) (fresh ch w)
  = if (user_balance u <? total)%float then mkSt w ch (reported "failed")
    else if overflows (user_balance u) total then mkSt w ch []
    else mkSt (set_db (set_users (fmap (debit (order_userId o) total))) w) ch
              (reported "success").
Proof.
  intros Hf Ho Hu. destruct w as [d fs u0 n]. cbn in Hf, Ho, Hu. subst fs.
  unfold find_order, find_user in *. cbv zeta. destruct ch; exec; congruence.
Qed.

(** When the order is not there. *)
Lemma settle_not_found w orderId :
  faults w = [] → orderId ≠ "" →
  find_order orderId (db w) = None →
  (∀ ch, run (pay backends orderId) (fresh ch w)
         = mkSt w ch [Sent 404 (BPaymentProcessed orderId "failed")])
  ∧ (∀ ch,
       run (consumer (DMsg (InventoryChecked orderId true))) (fresh ch w)
       = mkSt w ch match ch with
                   | ChOpen _ => [Published (PaymentProcessed orderId "failed")]
                   | _ => []
                   end).
Proof.
  intros Hf Hid Ho. destruct w as [d fs u0 n]. cbn in Hf, Ho. subst fs.
  unfold find_order in *. split; intros ch; [|destruct ch]; exec; congruence.
Qed.





(** The rows a decrement is rejected for, among the rows it addresses. *)
Lemma underflows_connected ids (ps : list Products) :
  underflows ids ps
  = existsb (λ p, product_stockAmount p <=? -2147483648)
            (filter (λ p, product_id p ∈ ids) ps).
Proof.
  unfold underflows. induction ps as [|p l IH]; [done|].
  rewrite filter_cons. cbn [existsb]. rewrite IH.
  assert (Hp : (product_stockAmount p - 1 <? -2147483648)
               = (product_stockAmount p <=? -2147483648))
    by (destruct (Z.leb_spec (product_stockAmount p) (-2147483648)),
                 (Z.ltb_spec (product_stockAmount p - 1) (-2147483648)); lia).
  case_decide.
  - rewrite bool_decide_eq_true_2 by done. cbn [existsb andb]. by rewrite Hp.
  - by rewrite bool_decide_eq_false_2.
Qed.


Lemma underflows_false ids (ps : list Products) :
  (∀ p, p ∈ ps → product_id p ∈ ids → -2147483648 < product_stockAmount p) →
  underflows ids ps = false.
Proof.
  intros Hps. unfold underflows. apply not_true_is_false.
  intros (p & Hin%list_elem_of_In & Hp)%existsb_exists.
  apply andb_true_iff in Hp as [Hid%bool_decide_eq_true_1 Hlt%Z.ltb_lt].
  specialize (Hps p Hin Hid). lia.
Qed.

(** Among finite amounts a debit overflows exactly when its result is
    infinite. *)
Lemma url_safe_named id : url_safe id = true → id ≠ "".
Proof.
  unfold url_safe, falsy. intros [Hid _]%andb_true_iff.
  by apply negb_true_iff, bool_decide_eq_false_1 in Hid.
Qed.

Lemma overflows_finite (x y : float) :
  is_finite x = true → is_finite y = true →
  overflows x y = is_infinity (x - y).
Proof.
  unfold overflows, is_finite.
  intros [_ ->]%negb_true_iff%orb_false_iff [_ ->]%negb_true_iff%orb_false_iff.
  by rewrite !andb_true_r.
Qed.

Lemma finite_number (x : float) : is_finite x = true → is_nan x = false.
Proof. unfold is_finite. by intros [? _]%negb_true_iff%orb_false_iff. Qed.


End payment.

(** C4, as the specification states it, fails: with the greatest balance
    and a connected product of the least price, the balance is at least
    the total, yet success is reported on neither path (the store rejects
    a debit that overflows): the route answers 500 after the stock was
    taken, the event handler publishes nothing. *)
Lemma enough_balance_without_success :
  let total := Payment.totalAmount
                 (attached_prices (mkOrder "o1" "u1" ["p1"]) (db refund_world)) in
  find_order "o1" (db refund_world) = Some (mkOrder "o1" "u1" ["p1"])
  ∧ (total <=? 0x1.fffffffffffffp+1023)%float = true
  ∧ response_of (trace (run (Payment.pay backends "o1") (fresh ChUndefined refund_world)))
    = Some (mkResponse 500 (BError "Internal Server Error while processing payment"))
  ∧ product_stockAmount <$> products (db (world (run (Payment.pay backends "o1")
                                                   (fresh ChUndefined refund_world))))
    = [4]
  ∧ trace (run (Payment.consumer (DMsg (InventoryChecked "o1" true)))
               (fresh (ChOpen true) refund_world))
    = [].
Proof. cbv zeta. split_and!; vm_compute; reflexivity. Qed.

(** C4, amended: settlement on both paths, the store answering, the
    balance and the total being finite and the order's identifier one
    that a URL carries unchanged.  The total is the binary64 sum,
    from 0 and in the order the store hands the rows back, of the prices
    of the products connected to the order.  When the balance is not at
    least the total, failure is reported and nothing is written.  When it
    is, the route has the stock taken first, and answers 500 with nothing
    written when a connected product is at the least stock a row can
    hold; then, on both paths, the debit: rejected by the store when
    [balance - total] overflows (500 on the route, nothing published by
    the event handler, no balance written), and otherwise the buyer's
    balance becomes [balance - total], every other balance is kept, and
    success is reported.  The event handler reports through its channel:
    nothing is published on a channel that is not open, the debit
    standing.  For an order that does not exist, failure is reported and
    nothing is written. *)
Theorem settlement w orderId :
  faults w = [] → orderId ≠ "" →
  match find_order orderId (db w) with
  | None =>
      (∀ ch, let s := run (Payment.pay backends orderId) (fresh ch w) in
             response_of (trace s)
             = Some (mkResponse 404 (BPaymentProcessed orderId "failed"))
             ∧ db (world s) = db w)
      ∧ (∀ ch,
           let s := run (Payment.consumer (DMsg (InventoryChecked orderId true)))
                        (fresh ch w) in
           trace s = match ch with
                     | ChOpen _ => [Published (PaymentProcessed orderId "failed")]
                     | _ => []
                     end
           ∧ db (world s) = db w)
  | Some o =>
      ∀ u, find_user (order_userId o) (db w) = Some u →
      url_safe orderId = true →
      let connected :=
        filter (λ p, product_id p ∈ order_products o) (products (db w)) in
      let total := foldl (λ acc price, acc + price)%float 0%float
                     (product_price <$> by_position (position (db w)) connected) in
      let balance := user_balance u in
      is_finite balance = true → is_finite total = true →
      let enough := (total <=? balance)%float in
      let stuck := existsb (λ p, product_stockAmount p <=? -2147483648) connected in
      let over := is_infinity (balance - total) in
      let debited :=
        (λ v, if bool_decide (user_id v = order_userId o)
              then mkUser (user_id v) (user_balance v - total)%float
              else v) <$> users (db w) in
      (∀ ch, let s := run (Payment.pay backends orderId) (fresh ch w) in
             if negb enough then
               response_of (trace s)
               = Some (mkResponse 400 (BPaymentProcessed orderId "failed"))
               ∧ db (world s) = db w
             else if stuck then
               response_of (trace s)
               = Some (mkResponse 500
                         (BError "Internal Server Error while calling inventory Endpoint"))
               ∧ db (world s) = db w
             else if over then
               response_of (trace s)
               = Some (mkResponse 500
                         (BError "Internal Server Error while processing payment"))
               ∧ users (db (world s)) = users (db w)
             else
               response_of (trace s)
               = Some (mkResponse 200 (BPaymentProcessed orderId "success"))
               ∧ users (db (world s)) = debited)
      ∧ (∀ ch,
           let s := run (Payment.consumer (DMsg (InventoryChecked orderId true)))
                        (fresh ch w) in
           let reported status :=
             match ch with
             | ChOpen _ => [Published (PaymentProcessed orderId status)]
             | _ => []
             end in
           if negb enough then trace s = reported "failed" ∧ db (world s) = db w
           else if over then trace s = [] ∧ db (world s) = db w
           else trace s = reported "success" ∧ users (db (world s)) = debited)
  end.
Proof.
  intros Hf Hid. destruct (find_order orderId (db w)) as [o|] eqn:Ho.
  - intros u Hu _ connected total balance Hfb Hft enough stuck over debited.
    assert (Hoid : order_id o = orderId)
      by (by apply find_decide_Some in Ho as [? _]).
    assert (Hshort : (user_balance u <? total)%float = negb enough)
      by (apply float_ltb_leb; by apply finite_number).
    assert (Hover : overflows (user_balance u) total = over)
      by (by apply overflows_finite).
    split.
    + intros ch. cbv zeta. rewrite (pay_run w ch orderId o u Hf Hid Ho Hu). cbv zeta.
      change (Payment.totalAmount (attached_prices o (db w))) with total.
      rewrite Hshort, Hover, underflows_connected. fold connected stuck. rewrite Hoid.
      destruct enough; [|done]. cbn [negb]. destruct stuck; [done|]. by destruct over.
    + intros ch. cbv zeta. rewrite (settle_run w ch orderId o u Hf Ho Hu). cbv zeta.
      change (Payment.totalAmount (attached_prices o (db w))) with total.
      rewrite Hshort, Hover.
      destruct enough; [|done]. cbn [negb]. by destruct over.
  - destruct (settle_not_found w orderId Hf Hid Ho) as [Hp Hc].
    split; intros c; cbv zeta; [rewrite Hp|rewrite Hc]; done.
Qed.

Lemma settlement_witness :
  (∀ ch, let s := run (Payment.pay backends "o1") (fresh ch checkout_world) in
         response_of (trace s)
         = Some (mkResponse 200 (BPaymentProcessed "o1" "success"))
         ∧ users (db (world s)) = [mkUser "u1" 9%float])
  ∧ (∀ ch,
       let s := run (Payment.consumer (DMsg (InventoryChecked "o1" true)))
                    (fresh ch checkout_world) in
       trace s = match ch with
                 | ChOpen _ => [Published (PaymentProcessed "o1" "success")]
                 | _ => []
                 end
       ∧ users (db (world s)) = [mkUser "u1" 9%float]).
Proof.
  exact (settlement checkout_world "o1" eq_refl ltac:(discriminate)
           (mkUser "u1" 10%float) eq_refl eq_refl eq_refl eq_refl).
Defined.

(** C9: in [POST /api/v1/payment] the stock is decremented, through the
    inventory service, before the balance is debited.  When the first
    three storage operations succeed (the payment service's read, the
    inventory service's read and its decrement, no connected product
    being at the least stock a row can hold) and the fourth, the debit,
    rejects, the client is answered 500, every connected product is left
    with one unit less than it had, every other product row and every
    balance as it was.  The balance and the total are finite, the
    balance at least the total, and the order's identifier is one that a
    URL carries unchanged. *)
Theorem stock_decrement_not_undone w ch orderId o u fs :
  url_safe orderId = true →
  find_order orderId (db w) = Some o →
  find_user (order_userId o) (db w) = Some u →
  let total :=
    foldl (λ acc price, acc + price)%float 0%float
      (product_price
         <$> by_position (position (db w))
               (filter (λ p, product_id p ∈ order_products o) (products (db w)))) in
  is_finite (user_balance u) = true → is_finite total = true →
  (total <=? user_balance u)%float = true →
  (∀ p, p ∈ products (db w) → product_id p ∈ order_products o →
        -2147483648 < product_stockAmount p) →
  faults w = false :: false :: false :: true :: fs →
  let s := run (Payment.pay backends orderId) (fresh ch w) in
  trace s = [Called (PatchInventoryUpdate orderId)
               (Some (mkResponse 200 (BMsg "Inventory updated successfully")));
             Sent 500 (BError "Internal Server Error while processing payment")]
  ∧ products (db (world s))
    = (λ p, if bool_decide (product_id p ∈ order_products o)
            then mkProducts (product_id p) (product_price p) (product_stockAmount p - 1)
            else p) <$> products (db w)
  ∧ users (db (world s)) = users (db w).
Proof.
  intros Hid%url_safe_named Ho Hu total Hfb Hft Hle Hstock Hf.
  pose proof (underflows_false _ _ Hstock) as Hunder.
  assert (Hlt : (user_balance u <? Payment.totalAmount (attached_prices o (db w)))%float
                = false).
  { change (Payment.totalAmount _) with total.
    rewrite float_ltb_leb by (by apply finite_number). by rewrite Hle. }
  clearbody total. clear Hfb Hft Hle.
  destruct w as [d fs0 u0 n]. cbn in Hf, Ho, Hu, Hlt, Hunder.
  subst fs0. unfold find_order, find_user in *. cbv zeta.
  exec; try congruence. done.
Qed.

Lemma stock_decrement_not_undone_witness :
  let w := mkWorld checkout_db [false; false; false; true] sample_uuid 0 in
  let s := run (Payment.pay backends "o1") (fresh ChUndefined w) in
  trace s = [Called (PatchInventoryUpdate "o1")
               (Some (mkResponse 200 (BMsg "Inventory updated successfully")));
             Sent 500 (BError "Internal Server Error while processing payment")]
  ∧ products (db (world s)) = [mkProducts "p1" 1%float 4]
  ∧ users (db (world s)) = [mkUser "u1" 10%float].
Proof.
  apply (stock_decrement_not_undone
           (mkWorld checkout_db [false; false; false; true] sample_uuid 0)
           ChUndefined "o1" (mkOrder "o1" "u1" ["p1"]) (mkUser "u1" 10%float) []);
    [reflexivity|reflexivity|reflexivity|reflexivity|reflexivity|reflexivity
    | |reflexivity].
  intros p [->|[]%elem_of_nil]%elem_of_cons _. cbn. lia.
Defined.



(** ** The order service *)

(** The effects of [POST /api/v1/order] around its call to the payment
    service. *)
Lemma create_trace peer ch w productId orderId answer :
  let tr := trace (run (Orders.create peer productId) (fresh ch w)) in
  Called (PostPayment orderId) answer ∈ tr →
  ∃ inventory tracker,
    let trackerId := body_trackerId (res_body tracker) in
    let before := [Called (GetInventory orderId [productId]) (Some inventory);
                   Called (PostTrackCreate orderId) (Some tracker);
                   Called (PostPayment orderId) answer] in
    match answer with
    | Some r =>
        if res_status r <? 500 then
          if bool_decide (res_status r ≠ 200)
             || bool_decide (body_status (res_body r) ≠ Some "success")
          then
            ∃ update,
              tr = before ++
                   [Called (PatchTrackUpdate trackerId "canceled") update;
                    if rejects update
                    then Sent 500 (BError "Internal Server Error while calling payment Endpoint")
                    else Sent 400 (BError ("Product " +:+ productId +:+ " couldnt be paid"))]
          else
            ∃ update rest,
              tr = before ++ Called (PatchTrackUpdate trackerId "paid") update :: rest
        else tr = before ++
                  [Sent 500 (BError "Internal Server Error while calling payment Endpoint")]
    | None => tr = before ++
                   [Sent 500 (BError "Internal Server Error while calling payment Endpoint")]
    end.
Proof.
  destruct w as [d fs u n]. cbv zeta.
  exec.
  all: intros Hin; repeat (apply elem_of_cons in Hin as [Hin|Hin]; simplify_eq).
  all: try (by apply elem_of_nil in Hin).
  all: try congruence.
  all: repeat lazymatch goal with |- ∃ _, _ => eexists end.
  all: cbn [app].
  all: repeat (apply (f_equal2 (@cons Effect));
               [unfold rejects;
                repeat match goal with H : (_ <? _) = _ |- _ => rewrite H end;
                reflexivity|]).
  all: reflexivity.
Qed.

(** C5, as the specification states it, fails: the payment service
    reports failure (the buyer has no money), the handler asks for the
    tracker to be canceled, that call fails (the tracking service's read
    is rejected by the store and it answers 500), and the handler answers
    500, not 400; the tracker is left ["created"]. *)
Lemma compensation_can_fail :
  let w := mkWorld (db broke_world) [false; false; false; false; false; false; true]
                   sample_uuid 0 in
  let s := run (Orders.create network "P") (fresh ChUndefined w) in
  trace s
  = [Called (GetInventory "uuid-0" ["P"])
            (Some (mkResponse 200 (BCheckInventory "uuid-0" true)));
     Called (PostTrackCreate "uuid-0")
            (Some (mkResponse 201 (BCreateTracker "uuid-1" "created")));
     Called (PostPayment "uuid-0")
            (Some (mkResponse 400 (BPaymentProcessed "uuid-0" "failed")));
     Called (PatchTrackUpdate "uuid-1" "canceled")
            (Some (mkResponse 500 (BError "Internal Server Error while updating tracker")));
     Sent 500 (BError "Internal Server Error while calling payment Endpoint")]
  ∧ orderTracks (db (world s)) = [mkOrderTrack "uuid-1" "uuid-0" "created"].
Proof. cbv zeta. split; vm_compute; reflexivity. Qed.

(** C5, amended: in [POST /api/v1/order], once the payment service has
    been called.  If it answers with a failure (a status below 500 other
    than 200, or a status field other than ["success"]), the next thing
    the handler does is to ask the tracking service to set to
    ["canceled"] the tracker whose identifier the creation call returned,
    and after that it responds: 400 when that call is answered with a
    status below 500, 500 when that call itself fails.  If the payment
    call fails (no answer, or a status of 500 or more), the handler
    responds 500 and calls the tracking service no more. *)
Theorem payment_failure_is_compensated peer ch w productId orderId answer :
  let tr := trace (run (Orders.create peer productId) (fresh ch w)) in
  let failed := Sent 500 (BError "Internal Server Error while calling payment Endpoint") in
  Called (PostPayment orderId) answer ∈ tr →
  (∀ r, answer = Some r → res_status r < 500 → payment_refused r →
     ∃ inventory tracker target update,
       tr = [Called (GetInventory orderId [productId]) (Some inventory);
             Called (PostTrackCreate orderId) (Some tracker);
             Called (PostPayment orderId) answer;
             Called (PatchTrackUpdate target "canceled") update;
             match update with
             | Some a =>
                 if res_status a <? 500
                 then Sent 400 (BError ("Product " +:+ productId +:+ " couldnt be paid"))
                 else failed
             | None => failed
             end]
       ∧ ∀ trackerId status,
           res_body tracker = BCreateTracker trackerId status → target = trackerId)
  ∧ ((answer = None ∨ ∃ r, answer = Some r ∧ 500 ≤ res_status r) →
     (∃ inventory tracker,
        tr = [Called (GetInventory orderId [productId]) (Some inventory);
              Called (PostTrackCreate orderId) (Some tracker);
              Called (PostPayment orderId) answer;
              failed])
     ∧ ∀ trackerId newStatus a, Called (PatchTrackUpdate trackerId newStatus) a ∉ tr).
Proof.
  intros tr failed Hin.
  destruct (create_trace peer ch w productId orderId answer Hin)
    as (inventory & tracker & Htr).
  fold tr in Htr. cbv zeta in Htr. split.
  - intros r -> Hr Hp. apply Z.ltb_lt in Hr. rewrite Hr in Htr.
    assert (Hb : bool_decide (res_status r ≠ 200)
                 || bool_decide (body_status (res_body r) ≠ Some "success") = true).
    { apply orb_true_iff. destruct Hp; [left|right]; by apply bool_decide_eq_true. }
    rewrite Hb in Htr. destruct Htr as (update & ->).
    exists inventory, tracker, (body_trackerId (res_body tracker)), update. split.
    + do 4 f_equal. destruct update as [a|]; [|done]. cbn.
      by destruct (res_status a <? 500).
    + by intros trackerId status ->.
  - intros Hr.
    assert (Htr' : tr = [Called (GetInventory orderId [productId]) (Some inventory);
                         Called (PostTrackCreate orderId) (Some tracker);
                         Called (PostPayment orderId) answer;
                         failed]).
    { destruct Hr as [->|(r & -> & Hr)]; [done|].
      apply Z.ltb_ge in Hr. by rewrite Hr in Htr. }
    split; [by exists inventory, tracker|].
    intros trackerId newStatus a. rewrite Htr'.
    intros Ha. repeat (apply elem_of_cons in Ha as [Ha|Ha]; [discriminate|]).
    by apply elem_of_nil in Ha.
Qed.

Lemma payment_failure_is_compensated_witness :
  let tr := trace (run (Orders.create network "P") (fresh ChUndefined broke_world)) in
  let failed := Sent 500 (BError "Internal Server Error while calling payment Endpoint") in
  let answer := Some (mkResponse 400 (BPaymentProcessed "uuid-0" "failed")) in
  (∀ r, answer = Some r → res_status r < 500 → payment_refused r →
     ∃ inventory tracker target update,
       tr = [Called (GetInventory "uuid-0" ["P"]) (Some inventory);
             Called (PostTrackCreate "uuid-0") (Some tracker);
             Called (PostPayment "uuid-0") answer;
             Called (PatchTrackUpdate target "canceled") update;
             match update with
             | Some a =>
                 if res_status a <? 500
                 then Sent 400 (BError ("Product " +:+ "P" +:+ " couldnt be paid"))
                 else failed
             | None => failed
             end]
       ∧ ∀ trackerId status,
           res_body tracker = BCreateTracker trackerId status → target = trackerId)
  ∧ ((answer = None ∨ ∃ r, answer = Some r ∧ 500 ≤ res_status r) →
     (∃ inventory tracker,
        tr = [Called (GetInventory "uuid-0" ["P"]) (Some inventory);
              Called (PostTrackCreate "uuid-0") (Some tracker);
              Called (PostPayment "uuid-0") answer;
              failed])
     ∧ ∀ trackerId newStatus a, Called (PatchTrackUpdate trackerId newStatus) a ∉ tr).
Proof.
  apply (payment_failure_is_compensated network ChUndefined broke_world "P" "uuid-0"
           (Some (mkResponse 400 (BPaymentProcessed "uuid-0" "failed")))).
  vm_compute. do 2 apply list_elem_of_further. apply list_elem_of_here.
Defined.

(** C7 at a failing input: the broker was never reached, so [channel] is
    undefined, and a request with a product identifier comes in.  The
    order is created, the handler throws, and no response is written:
    the client is not answered 500. *)
Theorem async_create_without_channel :
  let s := fresh ChUndefined broke_world in
  outcome (Orders.create_async "P") s = Thrown
  ∧ response_of (trace (run (Orders.create_async "P") s)) = None
  ∧ orders (db (world (run (Orders.create_async "P") s)))
    = [mkOrder "uuid-0" Orders.buyer []].
Proof. cbv zeta. split_and!; vm_compute; reflexivity. Qed.

(** * Further properties of the handlers *)

(** ** Which tables a service writes *)

(** X1: whatever it is handed and whatever the store does, the tracking
    service writes to no table but [OrderTrack]. *)
Theorem tracking_writes_only_trackers w st :
  orders (db (track_step st w)) = orders (db w)
  ∧ users (db (track_step st w)) = users (db w)
  ∧ products (db (track_step st w)) = products (db w).
Proof.
  destruct w as [[os us ps ts rk] fs u n].
  destruct st as [[| | | | |[o ids|o [|]|o status]|[| |]]|o|tid ns|tid]; exec; done.
Qed.

(** X2: the availability check reserves without taking stock.  On both
    entry points, whatever the store and the channel do, no product row,
    no user and no tracker is written, and the orders keep their
    identities and buyers: only the products connected to orders can
    change. *)
Theorem check_takes_no_stock w ch orderId productIds :
  let kept h :=
    let d' := db (world (run h (fresh ch w))) in
    products d' = products (db w)
    ∧ users d' = users (db w)
    ∧ orderTracks d' = orderTracks (db w)
    ∧ order_id <$> orders d' = order_id <$> orders (db w)
    ∧ order_userId <$> orders d' = order_userId <$> orders (db w) in
  kept (Inventory.check orderId productIds)
  ∧ kept (Inventory.consumer (DMsg (OrderCreated orderId productIds))).
Proof.
  destruct w as [[os us ps ts rk] fs u n]. cbv zeta. split.
  all: exec; split_and!; try done.
  all: rewrite fmap_proj; [done|]; intros x; by case_bool_decide.
Qed.

(** X3: the payment consumer writes balances and nothing else, for every
    delivery, channel and store. *)
Theorem payment_consumer_writes_only_balances w ch msg :
  let d' := db (world (run (Payment.consumer msg) (fresh ch w))) in
  orders d' = orders (db w)
  ∧ products d' = products (db w)
  ∧ orderTracks d' = orderTracks (db w)
  ∧ user_id <$> users d' = user_id <$> users (db w).
Proof.
  destruct w as [[os us ps ts rk] fs u n].
  destruct msg as [| | | | |[o ids|o [|]|o status]|[| |]]; exec; split_and!; try done.
  all: rewrite fmap_proj; [done|]; intros x; unfold debit; by case_bool_decide.
Qed.

(** ** What escapes a handler *)

(** X4: what escapes the inventory and payment consumers.  Their
    callback throws exactly on a message of a kind it handles that
    carries no [data] (the destructuring stands before the [try]), having
    written and published nothing; on every other delivery, whatever the
    channel and the store do, what rejects inside it is caught. *)
Theorem consumers_throw_on_missing_data msg s :
  (outcome (Inventory.consumer msg) s = Thrown
   ↔ msg = DNoData KOrderCreated ∨ msg = DNoData KPaymentProcessed)
  ∧ (outcome (Payment.consumer msg) s = Thrown ↔ msg = DNoData KInventoryChecked)
  ∧ (∀ kind, run (Inventory.consumer (DNoData kind)) s = s
             ∧ run (Payment.consumer (DNoData kind)) s = s).
Proof.
  destruct s as [[[os us ps ts rk] fs u n] ch tr].
  split_and!.
  - destruct msg as [| | | | |[o ids|o [|]|o status]|[| |]]; exec.
    all: split; [try done|intros [?|?]; try done]; tauto.
  - destruct msg as [| | | | |[o ids|o [|]|o status]|[| |]]; exec.
    all: split; try done.
  - intros [| |]; split; reflexivity.
Qed.

(** X5: the tracking consumer catches nothing.  An [inventory.checked]
    event with [isAvailable = false], or a [payment.processed] event, for
    an order that has no tracker makes its callback throw; the store is
    left as it was. *)
Theorem tracking_event_without_tracker w orderId msg :
  find_track_of_order orderId (db w) = None →
  msg = InventoryChecked orderId false ∨ (∃ status, msg = PaymentProcessed orderId status) →
  let s := fresh ChUndefined w in
  outcome (Tracking.consumer (DMsg msg)) s = Thrown
  ∧ db (world (run (Tracking.consumer (DMsg msg)) s)) = db w.
Proof.
  intros Ht Hmsg. destruct w as [[os us ps ts rk] fs u n].
  unfold find_track_of_order in Ht. cbn in Ht.
  destruct Hmsg as [->|[status ->]]; exec; try congruence; done.
Qed.

Lemma tracking_event_without_tracker_witness :
  let s := fresh ChUndefined shop_world in
  outcome (Tracking.consumer (DMsg (InventoryChecked "o1" false))) s = Thrown
  ∧ db (world (run (Tracking.consumer (DMsg (InventoryChecked "o1" false))) s))
    = db shop_world.
Proof.
  apply (tracking_event_without_tracker shop_world "o1" (InventoryChecked "o1" false));
    [reflexivity|by left].
Defined.

(** X6: every request to the routes of the tracking, inventory and
    payment services is answered, whatever the store, the channel and
    (for the payment route) the inventory service do. *)
Theorem requests_are_answered peer ch w :
  let answered h := is_Some (response_of (trace (run h (fresh ch w)))) in
  (∀ orderId, answered (Tracking.create orderId))
  ∧ (∀ trackerId newStatus, answered (Tracking.update trackerId newStatus))
  ∧ (∀ trackerId, answered (Tracking.get trackerId))
  ∧ (∀ orderId productIds, answered (Inventory.check orderId productIds))
  ∧ (∀ orderId, answered (Inventory.update orderId))
  ∧ (∀ orderId, answered (Payment.pay peer orderId)).
Proof.
  destruct w as [[os us ps ts rk] fs u n]. cbv zeta.
  split_and!; intros; exec; by eexists.
Qed.

(** ** The stock decrement *)

(** X7: the two entry points of the stock decrement,
    [PATCH /api/v1/inventory/update/:orderId] and a [payment.processed]
    event whose status is not ["failed"], leave the same world behind,
    for every store and fault schedule.  When the store answers and the
    order exists: if a product connected to the order is at the least
    stock a row can hold, the store rejects the decrement, no row is
    written and the route answers 500; otherwise each product connected
    to the order has exactly one unit less than before (0 or less
    included), however many units were ordered, and every other row is
    as it was. *)
Theorem decrement_paths_agree w ch ch' orderId status :
  orderId ≠ "" → status ≠ "failed" →
  let route := run (Inventory.update orderId) (fresh ch w) in
  let byRoute := world route in
  let byEvent := world (run (Inventory.consumer (DMsg (PaymentProcessed orderId status)))
                            (fresh ch' w)) in
  byRoute = byEvent
  ∧ ∀ o, faults w = [] → find_order orderId (db w) = Some o →
      if existsb (λ p, product_stockAmount p <=? -2147483648)
                 (filter (λ p, product_id p ∈ order_products o) (products (db w)))
      then
        products (db byRoute) = products (db w)
        ∧ response_of (trace route)
          = Some (mkResponse 500
                    (BError "Internal Server Error while calling update inventory Endpoint"))
      else
        ∀ i p, products (db w) !! i = Some p →
          ∃ p', products (db byRoute) !! i = Some p'
                ∧ product_id p' = product_id p
                ∧ product_price p' = product_price p
                ∧ product_stockAmount p'
                  = if bool_decide (product_id p ∈ order_products o)
                    then product_stockAmount p - 1
                    else product_stockAmount p.
Proof.
  intros Hid Hs. destruct w as [[os us ps ts rk] fs u n]. cbv zeta. split.
  - exec; congruence.
  - intros o Hf Ho. cbn in Hf, Ho. subst fs. unfold find_order in Ho.
    cbn [db products]. rewrite <- underflows_connected.
    destruct (underflows (order_products o) ps) eqn:Hu.
    + exec; try congruence; done.
    + intros i p Hp. exec; try congruence.
      all: eexists; (split; [by rewrite list_lookup_fmap, Hp|]).
      all: unfold decremented; by case_bool_decide.
Qed.

Lemma decrement_paths_agree_witness :
  let w := checkout_world in
  let route := run (Inventory.update "o1") (fresh ChUndefined w) in
  let byRoute := world route in
  let byEvent := world (run (Inventory.consumer (DMsg (PaymentProcessed "o1" "success")))
                            (fresh (ChOpen true) w)) in
  byRoute = byEvent
  ∧ ∀ o, faults w = [] → find_order "o1" (db w) = Some o →
      if existsb (λ p, product_stockAmount p <=? -2147483648)
                 (filter (λ p, product_id p ∈ order_products o) (products (db w)))
      then
        products (db byRoute) = products (db w)
        ∧ response_of (trace route)
          = Some (mkResponse 500
                    (BError "Internal Server Error while calling update inventory Endpoint"))
      else
        ∀ i p, products (db w) !! i = Some p →
          ∃ p', products (db byRoute) !! i = Some p'
                ∧ product_id p' = product_id p
                ∧ product_price p' = product_price p
                ∧ product_stockAmount p'
                  = if bool_decide (product_id p ∈ order_products o)
                    then product_stockAmount p - 1
                    else product_stockAmount p.
Proof.
  apply (decrement_paths_agree checkout_world ChUndefined (ChOpen true) "o1" "success");
    discriminate.
Defined.

(** ** The grouped request *)

(** X8: reading the object built by [reduce] over the requested
    identities.  For an identity that is not a member of
    [Object.prototype], it holds a count exactly when the identity is
    requested, and the count is the number of times it is.  For an
    identity that is one ([toString], [constructor], ...), it holds
    something that is not a number, whether the identity is requested or
    not, and a stored row so named is never available. *)
Theorem grouped_counts_requests productIds id :
  let inherited :=
    ["constructor"; "__defineGetter__"; "__defineSetter__"; "hasOwnProperty";
     "__lookupGetter__"; "__lookupSetter__"; "isPrototypeOf";
     "propertyIsEnumerable"; "toString"; "valueOf"; "__proto__";
     "toLocaleString"] in
  let read := Inventory.held (Inventory.groupedProducts productIds) id in
  (id ∉ inherited →
   (∀ n, read = Some (Inventory.Count n)
         ↔ (0 < requested id productIds)%nat ∧ n = Z.of_nat (requested id productIds))
   ∧ (read = None ↔ requested id productIds = 0%nat))
  ∧ (id ∈ inherited →
     read = Some Inventory.NotANumber
     ∧ ∀ price stock found,
         Inventory.isAvailable (mkProducts id price stock :: found)
                               (Inventory.groupedProducts productIds) = false).
Proof.
  cbv zeta. rewrite groupedProducts_lookup.
  change (id ∈ _) with (id ∈ Inventory.object_prototype). split.
  - intros Hid. rewrite bool_decide_eq_false_2 by done. split.
    + intros n. destruct (requested id productIds) as [|k].
      * split; [done|]. intros [? _]; lia.
      * split; [intros [= <-]|intros [_ ->]]; [split; [lia|done]|done].
    + by destruct (requested id productIds).
  - intros Hid. rewrite bool_decide_eq_true_2 by done. split; [done|].
    intros price stock found. cbn [Inventory.isAvailable forallb product_id].
    rewrite groupedProducts_lookup, bool_decide_eq_true_2 by done. done.
Qed.

(** ** The asynchronous order *)

(** X9: [POST /api/v2/order] with a product identifier, the store
    answering, the buyer existing and the new identifier free.  The order
    row is inserted whatever the channel is; with an open channel the
    event is handed to the exchange and the response is 201 or, when
    [publish] returns [false], 500 (the event having been handed over all
    the same); with no usable channel nothing is published and nothing
    is answered. *)
Theorem async_create_outcomes w ch productId b :
  faults w = [] → productId ≠ "" →
  find_user Orders.buyer (db w) = Some b →
  find_order (uuid w (uuid_next w)) (db w) = None →
  let o := mkOrder (uuid w (uuid_next w)) Orders.buyer [] in
  let s := run (Orders.create_async productId) (fresh ch w) in
  db (world s) = set_orders (λ os, os ++ [o]) (db w)
  ∧ trace s
    = match ch with
      | ChOpen writable =>
          [Published (OrderCreated (order_id o) [productId]);
           if writable then Sent 201 (BOrder "Order Created" o)
           else Sent 500 (BError "Internal Server Error while sending message to order queue")]
      | _ => []
      end.
Proof.
  intros Hf Hp Hb Ho. destruct w as [[os us ps ts rk] fs u n]. cbn in Hf, Hb, Ho.
  subst fs. unfold find_user, find_order in *. cbn in Hb, Ho. cbv zeta.
  exec; try congruence; done.
Qed.

Lemma async_create_outcomes_witness :
  let w := broke_world in
  let o := mkOrder (uuid w (uuid_next w)) Orders.buyer [] in
  let s := run (Orders.create_async "P") (fresh (ChOpen false) w) in
  db (world s) = set_orders (λ os, os ++ [o]) (db w)
  ∧ trace s
    = [Published (OrderCreated (order_id o) ["P"]);
       Sent 500 (BError "Internal Server Error while sending message to order queue")].
Proof.
  apply (async_create_outcomes broke_world (ChOpen false) "P" (mkUser Orders.buyer 0%float));
    [reflexivity|discriminate|reflexivity|reflexivity].
Defined.

(** ** The orchestration *)

(** X10: [POST /api/v1/order], whatever the peers, the store and the
    channel do.  The handler answers exactly once, as its last effect;
    before that it only calls peers, in the order inventory, tracker
    creation, payment, tracker update, stopping at the first that fails;
    and it answers 201 exactly when the four calls were made and
    answered with a status below 500, the inventory with 200 and
    [isAvailable], the tracker creation with 201, the payment with 200
    and ["success"], the last call being the update of the created
    tracker to ["paid"] (whose answer is not looked at). *)
Theorem create_answers_once peer ch w productId :
  let tr := trace (run (Orders.create peer productId) (fresh ch w)) in
  ∃ calls c b,
    tr = calls ++ [Sent c b]
    ∧ route <$> calls `prefix_of` saga
    ∧ (c = 201
       ↔ ∃ orderId inventory tracker payment update,
           calls = [Called (GetInventory orderId [productId]) (Some inventory);
                    Called (PostTrackCreate orderId) (Some tracker);
                    Called (PostPayment orderId) (Some payment);
                    Called (PatchTrackUpdate (body_trackerId (res_body tracker)) "paid")
                           (Some update)]
           ∧ res_status inventory = 200
           ∧ body_isAvailable (res_body inventory) = true
           ∧ res_status tracker = 201
           ∧ res_status payment = 200
           ∧ body_status (res_body payment) = Some "success"
           ∧ res_status update < 500).
Proof.
  destruct w as [d fs u n]. cbv zeta. exec.
  all: match goal with
       | |- ∃ calls c b, ?tr = _ ∧ _ =>
           let n := eval cbv in (pred (length tr)) in
           exists (take n tr); cbn [take]; do 2 eexists; split; [reflexivity|]
       end.
  all: split; [cbn; unfold saga; repeat (apply prefix_cons); apply prefix_nil|].
  all: split; try (by intros [=]); try reflexivity.
  all: try (intros (?&?&?&?&?&Heq&?&?&?&?&?&?); simplify_eq;
            repeat match goal with
              | H : (_ <? _) = false |- _ => apply Z.ltb_ge in H
              end; lia).
  all: intros _; do 5 eexists; split_and!; try reflexivity.
  all: repeat match goal with
         | H : negb _ = false |- _ => apply negb_false_iff in H
         | H : (_ <? _) = true |- _ => apply Z.ltb_lt in H
         end; try done; try lia.
  all: by apply dec_stable.
Qed.

(** ** Lookups in a table that grew or was rewritten *)

Lemma find_app_decide {A} (f : A → bool) (l l' : list A) :
  find f (l ++ l') = match find f l with Some x => Some x | None => find f l' end.
Proof. induction l as [|x l IH]; [done|]. cbn. by destruct (f x). Qed.

Lemma find_fmap_proj {A B} `{EqDecision B} (g : A → B) (h : A → A) (b : B) (l : list A) :
  (∀ x, g (h x) = g x) →
  find (λ y, bool_decide (g y = b)) (h <$> l)
  = h <$> find (λ y, bool_decide (g y = b)) l.
Proof.
  intros Hg. induction l as [|x l IH]; [done|]. cbn. rewrite Hg.
  by case_bool_decide.
Qed.

Lemma fmap_unmatched {A B} `{EqDecision B} (g : A → B) (h : A → A) (b : B) (l : list A) :
  find (λ y, bool_decide (g y = b)) l = None →
  (λ y, if bool_decide (g y = b) then h y else y) <$> l = l.
Proof.
  intros Hn. rewrite <- (list_fmap_id l) at 2. apply list_fmap_ext.
  intros i x Hi. cbn. destruct (bool_decide (g x = b)) eqn:Heq; [|done].
  apply bool_decide_eq_true_1 in Heq. apply find_decide_None in Hn.
  destruct Hn. rewrite <- Heq. apply list_elem_of_fmap_2.
  by eapply list_elem_of_lookup_2.
Qed.

(** ** The tracking routes, the store answering *)

Lemma serve_track_create w orderId o :
  faults w = [] → orderId ≠ "" →
  find_order orderId (db w) = Some o →
  find_track_of_order orderId (db w) = None →
  find_track (uuid w (uuid_next w)) (db w) = None →
  serve (Tracking.create orderId) w
  = (Some (mkResponse 201 (BCreateTracker (uuid w (uuid_next w)) "created")),
     mkWorld (set_orderTracks
                (λ ts, ts ++ [mkOrderTrack (uuid w (uuid_next w)) orderId "created"])
                (db w))
             [] (uuid w) (S (uuid_next w))).
Proof.
  intros Hf Hid Ho Ht Hfree. destruct w as [[os us ps ts rk] fs u n].
  cbn in *. subst fs. unfold find_order, find_track_of_order, find_track in *.
  cbn in *. pose proof Ho as [Hoid _]%find_decide_Some.
  exec; congruence.
Qed.

Lemma serve_track_update w trackerId newStatus t :
  faults w = [] → trackerId ≠ "" → terminal newStatus →
  find_track trackerId (db w) = Some t →
  serve (Tracking.update trackerId newStatus) w
  = (Some (mkResponse 200 (BMsg "Tracker updated")),
     set_db (set_orderTracks
               (fmap (λ t, if bool_decide (track_id t = trackerId)
                           then with_status newStatus t else t))) w).
Proof.
  intros Hf Hid Hs Ht. destruct w as [[os us ps ts rk] fs u n].
  cbn in *. subst fs. unfold find_track in *. cbn in *.
  destruct Hs as [-> | ->]; exec; congruence.
Qed.

Lemma serve_track_get w trackerId t :
  faults w = [] → trackerId ≠ "" →
  find_track trackerId (db w) = Some t →
  serve (Tracking.get trackerId) w = (Some (mkResponse 200 (BTracker t)), w).
Proof.
  intros Hf Hid Ht. destruct w as [[os us ps ts rk] fs u n].
  cbn in *. subst fs. unfold find_track in *. cbn in *.
  exec; congruence.
Qed.

(** ** A tracker's life *)

(** X11: create, update, get.  For an existing order with no tracker,
    the store answering and the new identifier free and not empty:
    creating the tracker answers 201 with the new identifier and status
    ["created"]; updating it to ['paid'] or ['canceled'] answers 200;
    getting it then answers 200 with the tracker carrying that status;
    and the table has gained exactly that row. *)
Theorem tracker_round_trip w orderId o newStatus :
  faults w = [] → orderId ≠ "" →
  find_order orderId (db w) = Some o →
  find_track_of_order orderId (db w) = None →
  let trackerId := uuid w (uuid_next w) in
  trackerId ≠ "" → find_track trackerId (db w) = None →
  terminal newStatus →
  let created := serve (Tracking.create orderId) w in
  let updated := serve (Tracking.update trackerId newStatus) created.2 in
  let got := serve (Tracking.get trackerId) updated.2 in
  created.1 = Some (mkResponse 201 (BCreateTracker trackerId "created"))
  ∧ updated.1 = Some (mkResponse 200 (BMsg "Tracker updated"))
  ∧ got.1 = Some (mkResponse 200 (BTracker (mkOrderTrack trackerId orderId newStatus)))
  ∧ db got.2
    = set_orderTracks (λ ts, ts ++ [mkOrderTrack trackerId orderId newStatus]) (db w).
Proof.
  intros Hf Hid Ho Ht tid Htid Hfree Hs created updated got.
  subst created updated got.
  rewrite (serve_track_create w orderId o Hf Hid Ho Ht Hfree). fold tid. cbn [fst snd].
  set (t := mkOrderTrack tid orderId "created").
  set (w1 := mkWorld _ _ _ _).
  assert (Ht1 : find_track tid (db w1) = Some t).
  { unfold find_track in *. subst w1. cbn.
    rewrite find_app_decide, Hfree. cbn. by rewrite bool_decide_eq_true_2. }
  rewrite (serve_track_update w1 tid newStatus t eq_refl Htid Hs Ht1). cbn [fst snd].
  set (w2 := set_db _ w1).
  assert (Hts : orderTracks (db w2)
                = orderTracks (db w) ++ [mkOrderTrack tid orderId newStatus]).
  { subst w2 w1. cbn. rewrite fmap_app.
    rewrite (fmap_unmatched track_id (with_status newStatus) tid) by done.
    cbn. by rewrite bool_decide_eq_true_2. }
  assert (Ht2 : find_track tid (db w2) = Some (mkOrderTrack tid orderId newStatus)).
  { unfold find_track in *. rewrite Hts, find_app_decide, Hfree. cbn.
    by rewrite bool_decide_eq_true_2. }
  rewrite (serve_track_get w2 tid _ eq_refl Htid Ht2). cbn [fst snd].
  split_and!; try done.
  destruct w as [[os us ps ts rk] fs u n]. subst w2 w1. cbn in *.
  unfold set_orderTracks. cbn. f_equal. exact Hts.
Qed.

Lemma tracker_round_trip_witness :
  let w := shop_world in
  let trackerId := uuid w (uuid_next w) in
  let created := serve (Tracking.create "o1") w in
  let updated := serve (Tracking.update trackerId "paid") created.2 in
  let got := serve (Tracking.get trackerId) updated.2 in
  created.1 = Some (mkResponse 201 (BCreateTracker trackerId "created"))
  ∧ updated.1 = Some (mkResponse 200 (BMsg "Tracker updated"))
  ∧ got.1 = Some (mkResponse 200 (BTracker (mkOrderTrack trackerId "o1" "paid")))
  ∧ db got.2
    = set_orderTracks (λ ts, ts ++ [mkOrderTrack trackerId "o1" "paid"]) (db w).
Proof.
  apply (tracker_round_trip shop_world "o1" (mkOrder "o1" "u1" []) "paid");
    [reflexivity|discriminate|reflexivity|reflexivity|discriminate|reflexivity|by left].
Defined.

(** ** The inventory and payment routes, the store answering *)

Lemma serve_check w orderId productIds o :
  faults w = [] → orderId ≠ "" →
  find_order orderId (db w) = Some o →
  matched productIds (db w) ≠ [] →
  let available :=
    Inventory.isAvailable (matched productIds (db w))
                          (Inventory.groupedProducts productIds) in
  serve (Inventory.check orderId productIds) w
  = (Some (mkResponse 200 (BCheckInventory orderId available)),
     if available
     then set_db (set_orders
                    (fmap (λ o, if bool_decide (order_id o = orderId)
                                then connect (product_id <$> matched productIds (db w)) o
                                else o))) w
     else w).
Proof.
  intros Hf Hid Ho Hm. destruct w as [d fs u n]. cbn in Hf, Ho, Hm. subst fs.
  pose proof (connect_matched_accepted productIds d) as Hc.
  pose proof (matched_nil d) as Hn.
  unfold find_order in Ho. cbv zeta. exec; try congruence.
  all: try (destruct productIds; simplify_eq/=; congruence).
  all: by destruct (matched productIds d).
Qed.

Lemma serve_pay w orderId o u :
  faults w = [] → orderId ≠ "" →
  find_order orderId (db w) = Some o →
  find_user (order_userId o) (db w) = Some u →
  let total := Payment.totalAmount (attached_prices o (db w)) in
  (user_balance u <? total)%float = false →
  underflows (order_products o) (products (db w)) = false →
  overflows (user_balance u) total = false →
  serve (Payment.pay backends orderId) w
  = (Some (mkResponse 200 (BPaymentProcessed (order_id o) "success")),
     set_db (λ d, set_users (fmap (debit (order_userId o) total))
                    (set_products (fmap (decremented (order_products o))) d)) w).
Proof.
  intros Hf Hid Ho Hu total Hlt Hunder Hover. unfold serve.
  rewrite (pay_run w ChUndefined orderId o u Hf Hid Ho Hu). cbv zeta. fold total.
  by rewrite Hlt, Hunder, Hover.
Qed.

(** ** One product, in stock *)

Section one_product.
Variables (d : Db) (productId : string) (p : Products).
Hypothesis Hproto : productId ∉ Inventory.object_prototype.
Hypothesis Hm : matched [productId] d = [p].
Hypothesis Hstock : 1 ≤ product_stockAmount p.

Lemma matched_named : product_id p = productId.
Proof.
  assert (Hin : p ∈ matched [productId] d) by (rewrite Hm; apply list_elem_of_here).
  apply list_elem_of_filter in Hin as [Hin _].
  by apply list_elem_of_singleton in Hin.
Qed.

Lemma one_available :
  Inventory.isAvailable (matched [productId] d) (Inventory.groupedProducts [productId])
  = true.
Proof.
  apply isAvailable_matched. rewrite Hm.
  intros q [->|[]%elem_of_nil]%elem_of_cons. rewrite matched_named.
  split; [done|]. unfold requested. rewrite filter_cons.
  case_decide; [cbn; lia|done].
Qed.

(** The prices read with an order connected to the product, in a store
    with the same products. *)
Lemma one_price o d' :
  order_products o = [productId] → products d' = products d →
  attached_prices o d' = [product_price p].
Proof.
  intros Ho Hps. unfold attached_prices. rewrite Ho, Hps.
  change (filter _ (products d)) with (matched [productId] d). by rewrite Hm.
Qed.

Lemma one_above_minimum : underflows [productId] (products d) = false.
Proof.
  apply underflows_false. intros q Hq Hid.
  assert (Hin : q ∈ matched [productId] d) by (by apply list_elem_of_filter).
  rewrite Hm in Hin. apply list_elem_of_singleton in Hin. subst q. lia.
Qed.

End one_product.

Lemma decremented_one productId (ps : list Products) :
  decremented [productId] <$> ps
  = (λ q, if bool_decide (product_id q = productId)
          then mkProducts (product_id q) (product_price q) (product_stockAmount q - 1)
          else q) <$> ps.
Proof.
  apply list_fmap_ext. intros _ q _. unfold decremented.
  destruct (decide (product_id q = productId)) as [Hq|Hq].
  - rewrite !bool_decide_eq_true_2; [done|done|by apply list_elem_of_singleton].
  - rewrite !bool_decide_eq_false_2; [done|done|by intros ?%list_elem_of_singleton].
Qed.

(** ** An order, from request to [paid] *)

Lemma axios_answered peer req s r w' :
  peer req (world s) = (Some r, w') → res_status r < 500 →
  axios peer req s
  = (Normal r, emit (Called req (Some r)) (set_world (λ _, w') s)).
Proof.
  intros Hp Hr. unfold axios. rewrite Hp.
  by apply Z.ltb_lt in Hr as ->.
Qed.

(** After an answered call: the tests on the answer, then on to the next
    call. *)
Ltac answered :=
  unfold emit, set_world;
  cbn -[axios network String.append];
  repeat match goal with
         | |- context [bool_decide (?a ≠ ?a)] =>
             rewrite (bool_decide_eq_false_2 (a ≠ a)) by (intros Hne; by apply Hne)
         end;
  cbn -[axios network String.append].

(** The order service's request up to its call to the payment service:
    the order is created, the product reserved, the tracker created. *)
Section checkout.
Variables (d : Db) (u : nat → string) (n : nat) (productId : string).
Variables (b : User) (p : Products).
Hypothesis Hpid : productId ≠ "".
Hypothesis Hproto : productId ∉ Inventory.object_prototype.
Hypothesis Hoid : u n ≠ "".
Hypothesis Htid : u (S n) ≠ "".
Hypothesis Hb : find_user Orders.buyer d = Some b.
Hypothesis Ho : find_order (u n) d = None.
Hypothesis Hto : find_track_of_order (u n) d = None.
Hypothesis Ht : find_track (u (S n)) d = None.
Hypothesis Hm : matched [productId] d = [p].
Hypothesis Hstock : 1 ≤ product_stockAmount p.

Let o0 := mkOrder (u n) Orders.buyer [].
Let o1 := mkOrder (u n) Orders.buyer [productId].
Let t0 := mkOrderTrack (u (S n)) (u n) "created".
Let total := (0 + product_price p)%float.
Let d1 := mkDb (orders d ++ [o0]) (users d) (products d) (orderTracks d) (position d).
Let d2 := mkDb (orders d ++ [o1]) (users d) (products d) (orderTracks d) (position d).
Let d3 := mkDb (orders d ++ [o1]) (users d) (products d) (orderTracks d ++ [t0])
               (position d).

Lemma order_found os o :
  find (λ o, bool_decide (order_id o = u n)) os = None → order_id o = u n →
  find (λ o, bool_decide (order_id o = u n)) (os ++ [o]) = Some o.
Proof.
  intros Hn Hid. rewrite find_app_decide, Hn. cbn. by rewrite bool_decide_eq_true_2.
Qed.

Lemma connected_to_new_order :
  (λ o, if bool_decide (order_id o = u n) then connect [product_id p] o else o)
    <$> (orders d ++ [o0])
  = orders d ++ [o1].
Proof.
  rewrite fmap_app.
  rewrite (fmap_unmatched order_id (connect [product_id p]) (u n)) by exact Ho.
  cbn. rewrite bool_decide_eq_true_2 by done.
  unfold connect, o0, o1. cbn.
  rewrite bool_decide_eq_false_2 by (apply not_elem_of_nil).
  by rewrite (matched_named d productId p Hm).
Qed.

Lemma checkout_check :
  network (GetInventory (u n) [productId]) (mkWorld d1 [] u (S n))
  = (Some (mkResponse 200 (BCheckInventory (u n) true)), mkWorld d2 [] u (S n)).
Proof.
  pose proof (serve_check (mkWorld d1 [] u (S n)) (u n) [productId] o0
                eq_refl Hoid (order_found (orders d) o0 Ho eq_refl)) as Hc.
  cbv zeta in Hc. cbn [db] in Hc.
  change (matched [productId] d1) with (matched [productId] d) in Hc.
  rewrite (one_available d productId p Hproto Hm Hstock), Hm in Hc.
  cbn [network backends]. rewrite Hc by done.
  f_equal. unfold set_db, set_orders, d1, d2. cbn -[connect]. do 2 f_equal.
  apply connected_to_new_order.
Qed.

Lemma checkout_track :
  network (PostTrackCreate (u n)) (mkWorld d2 [] u (S n))
  = (Some (mkResponse 201 (BCreateTracker (u (S n)) "created")),
     mkWorld d3 [] u (S (S n))).
Proof.
  cbn [network backends].
  by rewrite (serve_track_create (mkWorld d2 [] u (S n)) (u n) o1 eq_refl Hoid
                (order_found (orders d) o1 Ho eq_refl) Hto Ht).
Qed.

Lemma checkout_total : Payment.totalAmount (attached_prices o1 d3) = total.
Proof. by rewrite (one_price d productId p Hm o1 d3). Qed.

Lemma checkout_tracker_found us ps :
  find_track (u (S n))
    (mkDb (orders d ++ [o1]) us ps (orderTracks d ++ [t0]) (position d))
  = Some t0.
Proof.
  unfold find_track in *. cbn. rewrite find_app_decide, Ht. cbn.
  by rewrite bool_decide_eq_true_2.
Qed.

Lemma checkout_tracker_set status :
  (λ t, if bool_decide (track_id t = u (S n)) then with_status status t else t)
    <$> (orderTracks d ++ [t0])
  = orderTracks d ++ [mkOrderTrack (u (S n)) (u n) status].
Proof.
  rewrite fmap_app.
  rewrite (fmap_unmatched track_id (with_status status) (u (S n))) by exact Ht.
  cbn. by rewrite bool_decide_eq_true_2.
Qed.

(** Up to the payment: what the handler has done, and what is left of
    it. *)
Ltac to_payment :=
  cbv zeta; unfold run, fresh, Orders.create, Orders.settle, falsy;
  rewrite (bool_decide_eq_false_2 (productId = "")) by done;
  unfold_m; cbn -[axios network String.append];
  unfold order_create; rewrite Ho, Hb; cbn -[axios network String.append];
  change (set_orders _ d) with d1;
  erewrite (axios_answered network (GetInventory _ _)); [|exact checkout_check|done];
  answered;
  erewrite (axios_answered network (PostTrackCreate _)); [|exact checkout_track|done];
  answered.

(** The synchronous path with every service answering: the response and
    the world [POST /api/v1/order] leaves. *)
Lemma synchronous_paid ch :
  (user_balance b <? total)%float = false →
  overflows (user_balance b) total = false →
  let s := run (Orders.create network productId) (fresh ch (mkWorld d [] u n)) in
  response_of (trace s)
  = Some (mkResponse 201 (BOrder "Order Created and successfully paid" o0))
  ∧ world s
    = mkWorld (mkDb (orders d ++ [o1])
                    (debit Orders.buyer total <$> users d)
                    (decremented [productId] <$> products d)
                    (orderTracks d ++ [mkOrderTrack (u (S n)) (u n) "paid"])
                    (position d))
              [] u (S (S n)).
Proof.
  intros Hbal Hover.
  set (d4 := mkDb (orders d ++ [o1]) (debit Orders.buyer total <$> users d)
                  (decremented [productId] <$> products d) (orderTracks d ++ [t0])
                  (position d)).
  assert (Hpay : network (PostPayment (u n)) (mkWorld d3 [] u (S (S n)))
                 = (Some (mkResponse 200 (BPaymentProcessed (u n) "success")),
                    mkWorld d4 [] u (S (S n)))).
  { cbn [network].
    rewrite (serve_pay (mkWorld d3 [] u (S (S n))) (u n) o1 b eq_refl Hoid
               (order_found (orders d) o1 Ho eq_refl) Hb);
      cbn [db]; rewrite ?checkout_total; try done.
    exact (one_above_minimum d productId p Hm Hstock). }
  set (d5 := set_orderTracks
               (fmap (λ t, if bool_decide (track_id t = u (S n))
                           then with_status "paid" t else t)) d4).
  assert (Hupd : network (PatchTrackUpdate (u (S n)) "paid") (mkWorld d4 [] u (S (S n)))
                 = (Some (mkResponse 200 (BMsg "Tracker updated")),
                    mkWorld d5 [] u (S (S n)))).
  { cbn [network backends].
    by rewrite (serve_track_update (mkWorld d4 [] u (S (S n))) (u (S n)) "paid" t0
                  eq_refl Htid ltac:(by left) (checkout_tracker_found _ _)). }
  to_payment.
  erewrite (axios_answered network (PostPayment _)); [|exact Hpay|done].
  answered.
  erewrite (axios_answered network (PatchTrackUpdate _ _)); [|exact Hupd|done].
  answered.
  split; [done|].
  unfold d5, d4, set_orderTracks. cbn. do 2 f_equal. apply checkout_tracker_set.
Qed.

(** The same when the payment service refuses. *)
Lemma synchronous_unpaid ch :
  (user_balance b <? total)%float = true →
  let s := run (Orders.create network productId) (fresh ch (mkWorld d [] u n)) in
  response_of (trace s)
  = Some (mkResponse 400 (BError ("Product " +:+ productId +:+ " couldnt be paid")))
  ∧ world s
    = mkWorld (mkDb (orders d ++ [o1]) (users d) (products d)
                    (orderTracks d ++ [mkOrderTrack (u (S n)) (u n) "canceled"])
                    (position d))
              [] u (S (S n)).
Proof.
  intros Hbal.
  assert (Hpay : network (PostPayment (u n)) (mkWorld d3 [] u (S (S n)))
                 = (Some (mkResponse 400 (BPaymentProcessed (u n) "failed")),
                    mkWorld d3 [] u (S (S n)))).
  { cbn [network]. unfold serve.
    rewrite (pay_run (mkWorld d3 [] u (S (S n))) ChUndefined (u n) o1 b eq_refl Hoid
               (order_found (orders d) o1 Ho eq_refl) Hb).
    cbv zeta. cbn [db]. by rewrite checkout_total, Hbal. }
  set (d5 := set_orderTracks
               (fmap (λ t, if bool_decide (track_id t = u (S n))
                           then with_status "canceled" t else t)) d3).
  assert (Hupd : network (PatchTrackUpdate (u (S n)) "canceled") (mkWorld d3 [] u (S (S n)))
                 = (Some (mkResponse 200 (BMsg "Tracker updated")),
                    mkWorld d5 [] u (S (S n)))).
  { cbn [network backends].
    by rewrite (serve_track_update (mkWorld d3 [] u (S (S n))) (u (S n)) "canceled" t0
                  eq_refl Htid ltac:(by right) (checkout_tracker_found _ _)). }
  to_payment.
  erewrite (axios_answered network (PostPayment _)); [|exact Hpay|done].
  answered.
  rewrite (bool_decide_eq_true_2 (400 ≠ 200)) by done.
  cbn -[axios network String.append].
  erewrite (axios_answered network (PatchTrackUpdate _ _)); [|exact Hupd|done].
  answered.
  split; [done|].
  unfold d5, d3, set_orderTracks. cbn. do 2 f_equal. apply checkout_tracker_set.
Qed.

End checkout.

(** X12: the four services together, on the synchronous path.  The
    store answers, the buyer exists, the new identifiers are free and made of
    letters, digits and hyphens, exactly one stored row [p] has the requested identity, which
    is not the name of a member of [Object.prototype], with at least one
    unit in stock, the balance and the price are finite, and the buyer's
    balance is not below the price nor does the debit overflow.  Then [POST /api/v1/order] answers 201 with
    the order as it was created, and leaves a store that has gained the
    order connected to the product and its tracker with status ["paid"],
    where the buyer's balance is the old one minus [0 + price], the
    product's stock is one unit less, and every other row is as it was. *)
Theorem order_paid_end_to_end d u n ch productId b p :
  productId ≠ "" → productId ∉ Inventory.object_prototype →
  url_safe (u n) = true → url_safe (u (S n)) = true →
  find_user Orders.buyer d = Some b →
  find_order (u n) d = None →
  find_track_of_order (u n) d = None →
  find_track (u (S n)) d = None →
  matched [productId] d = [p] →
  1 ≤ product_stockAmount p →
  is_finite (user_balance b) = true → is_finite (product_price p) = true →
  (user_balance b <? 0 + product_price p)%float = false →
  overflows (user_balance b) (0 + product_price p) = false →
  let s := run (Orders.create network productId) (fresh ch (mkWorld d [] u n)) in
  response_of (trace s)
  = Some (mkResponse 201 (BOrder "Order Created and successfully paid"
                                 (mkOrder (u n) Orders.buyer [])))
  ∧ db (world s)
    = mkDb (orders d ++ [mkOrder (u n) Orders.buyer [productId]])
           ((λ v, if bool_decide (user_id v = Orders.buyer)
                  then mkUser (user_id v) (user_balance v - (0 + product_price p))%float
                  else v) <$> users d)
           ((λ q, if bool_decide (product_id q = productId)
                  then mkProducts (product_id q) (product_price q)
                                  (product_stockAmount q - 1)
                  else q) <$> products d)
           (orderTracks d ++ [mkOrderTrack (u (S n)) (u n) "paid"])
           (position d).
Proof.
  intros Hpid Hproto Hoid%url_safe_named Htid%url_safe_named Hb Ho Hto Ht Hm Hstock _ _ Hbal Hover.
  destruct (synchronous_paid d u n productId b p
              Hpid Hproto Hoid Htid Hb Ho Hto Ht Hm Hstock ch Hbal Hover) as [Hr Hw].
  cbv zeta in *. rewrite Hr, Hw. split; [done|]. cbn [db].
  by rewrite decremented_one.
Qed.

Lemma order_paid_end_to_end_witness :
  let d := mkDb [] [mkUser Orders.buyer 1000%float] [mkProducts "P" 1%float 100] []
                table_order in
  let s := run (Orders.create network "P") (fresh ChUndefined (mkWorld d [] sample_uuid 0)) in
  response_of (trace s)
  = Some (mkResponse 201 (BOrder "Order Created and successfully paid"
                                 (mkOrder (sample_uuid 0) Orders.buyer [])))
  ∧ db (world s)
    = mkDb [mkOrder (sample_uuid 0) Orders.buyer ["P"]]
           [mkUser Orders.buyer 999%float]
           [mkProducts "P" 1%float 99]
           [mkOrderTrack (sample_uuid 1) (sample_uuid 0) "paid"]
           table_order.
Proof.
  apply (order_paid_end_to_end
           (mkDb [] [mkUser Orders.buyer 1000%float] [mkProducts "P" 1%float 100] []
                 table_order)
           sample_uuid 0%nat ChUndefined "P"
           (mkUser Orders.buyer 1000%float) (mkProducts "P" 1%float 100));
    [discriminate|by apply (bool_decide_eq_false_1 (_ ∈ _))|reflexivity|reflexivity
    |reflexivity|reflexivity|reflexivity|reflexivity|reflexivity|cbn; lia
    |reflexivity|reflexivity|reflexivity|reflexivity].
Defined.

Lemma serve_check_unmatched w orderId productIds :
  faults w = [] → orderId ≠ "" → productIds ≠ [] →
  matched productIds (db w) = [] →
  serve (Inventory.check orderId productIds) w
  = (Some (mkResponse 404 (BError "Products not found")), w).
Proof.
  intros Hf Hid Hp Hm. destruct w as [d fs u n]. cbn in Hf, Hm. subst fs.
  exec; rewrite ?Hm in *; try done.
  all: by destruct productIds.
Qed.

(** X13: the synchronous path when the buyer cannot pay.  The store
    answers, the buyer exists, the new identifiers are free and made of
    letters, digits and hyphens, exactly one stored row has the requested identity, which is
    not the name of a member of [Object.prototype], with at least one
    unit in stock, the balance and the price are finite, and the buyer's
    balance is below the price.  Then
    [POST /api/v1/order] answers 400, the tracker it created ends
    ["canceled"], no balance and no stock is written, and the order stays
    connected to the product. *)
Theorem order_unpaid_end_to_end d u n ch productId b p :
  productId ≠ "" → productId ∉ Inventory.object_prototype →
  url_safe (u n) = true → url_safe (u (S n)) = true →
  find_user Orders.buyer d = Some b →
  find_order (u n) d = None →
  find_track_of_order (u n) d = None →
  find_track (u (S n)) d = None →
  matched [productId] d = [p] →
  1 ≤ product_stockAmount p →
  is_finite (user_balance b) = true → is_finite (product_price p) = true →
  (user_balance b <? 0 + product_price p)%float = true →
  let s := run (Orders.create network productId) (fresh ch (mkWorld d [] u n)) in
  response_of (trace s)
  = Some (mkResponse 400 (BError ("Product " +:+ productId +:+ " couldnt be paid")))
  ∧ db (world s)
    = mkDb (orders d ++ [mkOrder (u n) Orders.buyer [productId]])
           (users d) (products d)
           (orderTracks d ++ [mkOrderTrack (u (S n)) (u n) "canceled"])
           (position d).
Proof.
  intros Hpid Hproto Hoid%url_safe_named Htid%url_safe_named Hb Ho Hto Ht Hm Hstock _ _ Hbal.
  destruct (synchronous_unpaid d u n productId b p
              Hpid Hproto Hoid Htid Hb Ho Hto Ht Hm Hstock ch Hbal) as [Hr Hw].
  cbv zeta in *. by rewrite Hr, Hw.
Qed.

Lemma order_unpaid_end_to_end_witness :
  let d := db broke_world in
  let s := run (Orders.create network "P") (fresh ChUndefined (mkWorld d [] sample_uuid 0)) in
  response_of (trace s)
  = Some (mkResponse 400 (BError ("Product " +:+ "P" +:+ " couldnt be paid")))
  ∧ db (world s)
    = mkDb [mkOrder (sample_uuid 0) Orders.buyer ["P"]]
           [mkUser Orders.buyer 0%float] [mkProducts "P" 1%float 10]
           [mkOrderTrack (sample_uuid 1) (sample_uuid 0) "canceled"]
           table_order.
Proof.
  apply (order_unpaid_end_to_end (db broke_world) sample_uuid 0%nat ChUndefined "P"
           (mkUser Orders.buyer 0%float) (mkProducts "P" 1%float 10));
    [discriminate|by apply (bool_decide_eq_false_1 (_ ∈ _))|reflexivity|reflexivity
    |reflexivity|reflexivity|reflexivity|reflexivity|reflexivity|cbn; lia
    |reflexivity|reflexivity|reflexivity].
Defined.

(** X14: the synchronous path when the product cannot be reserved.  The store
    answers, the buyer exists and the new identifier is free and not
    empty, but the requested identity is not stored or the matched rows
    do not all have a unit in stock.  Then [POST /api/v1/order] answers
    400 after its call to the inventory service only, and the one thing
    written is the order row, with no product and no tracker. *)
Theorem order_unavailable_end_to_end d u n ch productId b :
  productId ≠ "" → u n ≠ "" →
  find_user Orders.buyer d = Some b →
  find_order (u n) d = None →
  ¬ matched_in_stock [productId] d →
  let s := run (Orders.create network productId) (fresh ch (mkWorld d [] u n)) in
  response_of (trace s)
  = Some (mkResponse 400 (BError ("Product " +:+ productId +:+ " not available")))
  ∧ route <$> trace s = ["GET /api/v1/inventory"; ""]
  ∧ db (world s) = set_orders (λ os, os ++ [mkOrder (u n) Orders.buyer []]) d.
Proof.
  intros Hpid Hoid Hb Ho Hns.
  set (o0 := mkOrder (u n) Orders.buyer []).
  set (d1 := set_orders (λ os, os ++ [o0]) d).
  assert (Ho1 : find_order (u n) d1 = Some o0).
  { unfold find_order in *. cbn. rewrite find_app_decide, Ho. cbn.
    by rewrite bool_decide_eq_true_2. }
  assert (Hcheck : ∃ r, network (GetInventory (u n) [productId]) (mkWorld d1 [] u (S n))
                        = (Some r, mkWorld d1 [] u (S n))
                        ∧ res_status r < 500
                        ∧ bool_decide (res_status r ≠ 200)
                          || negb (body_isAvailable (res_body r)) = true).
  { cbn [network backends].
    destruct (matched [productId] d) as [|p l] eqn:Hm.
    - eexists. split; [|split].
      + by apply (serve_check_unmatched (mkWorld d1 [] u (S n)) (u n) [productId]).
      + done.
      + done.
    - pose proof (serve_check (mkWorld d1 [] u (S n)) (u n) [productId] o0
                    eq_refl Hoid Ho1) as Hc.
      cbv zeta in Hc. cbn [db] in Hc.
      change (matched [productId] d1) with (matched [productId] d) in Hc.
      assert (Hav : Inventory.isAvailable (matched [productId] d)
                      (Inventory.groupedProducts [productId]) = false).
      { apply not_true_is_false. intros Hav. apply Hns. split; [by rewrite Hm|].
        intros q Hq. by apply (isAvailable_matched [productId] d). }
      rewrite Hav in Hc. rewrite Hc by (by rewrite Hm).
      eexists. split; [done|]. split; [done|]. cbn. by rewrite orb_true_r. }
  destruct Hcheck as (r & Hcheck & Hr & Htest).
  cbv zeta. unfold run, fresh, Orders.create, Orders.settle, falsy.
  rewrite (bool_decide_eq_false_2 (productId = "")) by done.
  unfold_m. cbn -[axios network String.append].
  unfold order_create. rewrite Ho, Hb. cbn -[axios network String.append].
  erewrite (axios_answered network (GetInventory _ _)); [|exact Hcheck|done].
  unfold emit, set_world. cbn -[axios network String.append].
  rewrite Htest. cbn -[axios network String.append]. done.
Qed.

Lemma order_unavailable_end_to_end_witness :
  let d := mkDb [] [mkUser Orders.buyer 1000%float] [mkProducts "P" 1%float 0] []
                table_order in
  let s := run (Orders.create network "P") (fresh ChUndefined (mkWorld d [] sample_uuid 0)) in
  response_of (trace s)
  = Some (mkResponse 400 (BError ("Product " +:+ "P" +:+ " not available")))
  ∧ route <$> trace s = ["GET /api/v1/inventory"; ""]
  ∧ db (world s) = set_orders (λ os, os ++ [mkOrder (sample_uuid 0) Orders.buyer []]) d.
Proof.
  apply (order_unavailable_end_to_end
           (mkDb [] [mkUser Orders.buyer 1000%float] [mkProducts "P" 1%float 0] []
                 table_order)
           sample_uuid 0%nat ChUndefined "P" (mkUser Orders.buyer 1000%float));
    [discriminate|vm_compute; discriminate|reflexivity|reflexivity|].
  intros [_ H]. specialize (H (mkProducts "P" 1%float 0)). cbn in H.
  assert (1 ≤ 0) by (apply H; apply list_elem_of_here). lia.
Defined.

(** ** Reserving twice *)

Lemma connect_keeps (ids acc : list string) x :
  x ∈ acc →
  x ∈ foldl (λ acc id, if bool_decide (id ∈ acc) then acc else acc ++ [id]) acc ids.
Proof.
  revert acc. induction ids as [|id ids IH]; intros acc Hx; [done|].
  cbn. apply IH. case_bool_decide; [done|]. apply elem_of_app; by left.
Qed.

Lemma connect_adds (ids acc : list string) x :
  x ∈ ids →
  x ∈ foldl (λ acc id, if bool_decide (id ∈ acc) then acc else acc ++ [id]) acc ids.
Proof.
  revert acc. induction ids as [|id ids IH]; intros acc Hx; [by apply elem_of_nil in Hx|].
  cbn. apply elem_of_cons in Hx as [->|Hx]; [|by apply IH].
  apply connect_keeps. case_bool_decide; [done|].
  apply elem_of_app; right. apply list_elem_of_here.
Qed.

Lemma connect_nothing_new (ids acc : list string) :
  (∀ x, x ∈ ids → x ∈ acc) →
  foldl (λ acc id, if bool_decide (id ∈ acc) then acc else acc ++ [id]) acc ids = acc.
Proof.
  induction ids as [|id ids IH]; intros Hin; [done|].
  cbn. rewrite bool_decide_eq_true_2 by (apply Hin, list_elem_of_here).
  apply IH. intros x Hx. by apply Hin, list_elem_of_further.
Qed.

Lemma connect_idempotent ids o : connect ids (connect ids o) = connect ids o.
Proof.
  unfold connect. cbn. f_equal. apply connect_nothing_new.
  intros x Hx. by apply connect_adds.
Qed.

Lemma serve_check_writes_nothing w orderId productIds :
  faults w = [] →
  orderId = "" ∨ find_order orderId (db w) = None
  ∨ matched productIds (db w) = []
  ∨ Inventory.isAvailable (matched productIds (db w))
                          (Inventory.groupedProducts productIds) = false →
  (serve (Inventory.check orderId productIds) w).2 = w.
Proof.
  intros Hf Hc. destruct w as [d fs u n]. cbn in Hf, Hc. subst fs.
  unfold find_order in Hc.
  destruct Hc as [->|[Hc|[Hc|Hc]]]; exec; rewrite ?Hc in *; try done; congruence.
Qed.

(** X15: reserving is idempotent.  With the store answering, a second
    [GET /api/v1/inventory] for the same order and identities is answered
    as the first was and leaves the store as the first left it. *)
Theorem check_twice w orderId productIds :
  faults w = [] →
  let once := serve (Inventory.check orderId productIds) w in
  let twice := serve (Inventory.check orderId productIds) once.2 in
  twice.1 = once.1 ∧ db twice.2 = db once.2.
Proof.
  intros Hf once twice. subst once twice.
  destruct (decide (orderId = "")) as [Hid|Hid].
  { by rewrite !(serve_check_writes_nothing w orderId productIds Hf) by (by left). }
  destruct (find_order orderId (db w)) as [o|] eqn:Ho; cycle 1.
  { by rewrite !(serve_check_writes_nothing w orderId productIds Hf) by (right; by left). }
  destruct (matched productIds (db w)) as [|p l] eqn:Hm.
  { by rewrite !(serve_check_writes_nothing w orderId productIds Hf)
      by (right; right; by left). }
  destruct (Inventory.isAvailable (matched productIds (db w))
              (Inventory.groupedProducts productIds)) eqn:Hav; cycle 1.
  { by rewrite !(serve_check_writes_nothing w orderId productIds Hf)
      by (right; right; by right). }
  assert (Hne : matched productIds (db w) ≠ []) by (by rewrite Hm).
  rewrite (serve_check w orderId productIds o Hf Hid Ho Hne). cbv zeta.
  rewrite Hav. cbn [fst snd].
  set (ids := product_id <$> matched productIds (db w)).
  set (w1 := set_db _ w).
  assert (Hm1 : matched productIds (db w1) = matched productIds (db w))
    by (by destruct w as [[] ? ? ?]).
  assert (Ho1 : find_order orderId (db w1) = Some (connect ids o)).
  { destruct w as [[os us ps ts rk] fs u n]. unfold find_order in *. cbn in *.
    rewrite (find_fmap_proj order_id
               (λ o, if bool_decide (order_id o = orderId) then connect ids o else o)).
    - rewrite Ho. cbn. apply find_decide_Some in Ho as [Ho _].
      by rewrite bool_decide_eq_true_2.
    - intros x. by case_bool_decide. }
  assert (Hf1 : faults w1 = []) by (by destruct w as [[] ? ? ?]).
  rewrite (serve_check w1 orderId productIds (connect ids o) Hf1 Hid Ho1)
    by (by rewrite Hm1).
  cbv zeta. rewrite Hm1, Hav. fold ids. split; [done|].
  destruct w as [[os us ps ts rk] fs u n]. subst w1. cbn. unfold set_orders. cbn.
  f_equal. rewrite <- list_fmap_compose. apply list_fmap_ext. intros i x Hi. cbn.
  destruct (bool_decide (order_id x = orderId)) eqn:Hx; cbn; rewrite Hx; [|done].
  apply connect_idempotent.
Qed.

Lemma check_twice_witness :
  let once := serve (Inventory.check "o1" ["p1"]) shop_world in
  let twice := serve (Inventory.check "o1" ["p1"]) once.2 in
  twice.1 = once.1 ∧ db twice.2 = db once.2.
Proof. apply (check_twice shop_world "o1" ["p1"]). reflexivity. Defined.

(** ** The consumers, the store answering *)

Lemma tracking_creates w ch orderId productIds o :
  faults w = [] →
  find_order orderId (db w) = Some o →
  find_track_of_order orderId (db w) = None →
  find_track (uuid w (uuid_next w)) (db w) = None →
  run (Tracking.consumer (DMsg (OrderCreated orderId productIds))) (fresh ch w)
  = mkSt (mkWorld (set_orderTracks
                     (λ ts, ts ++ [mkOrderTrack (uuid w (uuid_next w)) orderId "created"])
                     (db w))
                  [] (uuid w) (S (uuid_next w)))
         ch [].
Proof.
  intros Hf Ho Ht Hfree. destruct w as [[os us ps ts rk] fs u n].
  cbn in *. subst fs. unfold find_order, find_track_of_order, find_track in *.
  cbn in *. exec; congruence.
Qed.

Lemma inventory_reserves w writable orderId productIds o :
  faults w = [] →
  find_order orderId (db w) = Some o →
  matched productIds (db w) ≠ [] →
  let available :=
    Inventory.isAvailable (matched productIds (db w))
                          (Inventory.groupedProducts productIds) in
  run (Inventory.consumer (DMsg (OrderCreated orderId productIds)))
      (fresh (ChOpen writable) w)
  = mkSt (if available
          then set_db (set_orders
                         (fmap (λ o, if bool_decide (order_id o = orderId)
                                     then connect (product_id <$> matched productIds (db w)) o
                                     else o))) w
          else w)
         (ChOpen writable)
         [Published (InventoryChecked orderId available)].
Proof.
  intros Hf Ho Hm. destruct w as [d fs u n]. cbn in Hf, Ho, Hm. subst fs.
  pose proof (connect_matched_accepted productIds d) as Hc.
  unfold find_order in Ho. cbv zeta. exec; try congruence.
  all: by destruct (matched productIds d).
Qed.

Lemma tracking_projects w ch orderId status t :
  faults w = [] →
  find_track_of_order orderId (db w) = Some t →
  run (Tracking.consumer (DMsg (PaymentProcessed orderId status))) (fresh ch w)
  = mkSt (set_db (set_orderTracks
                    (fmap (λ t, if bool_decide (track_orderId t = orderId)
                                then with_status (if bool_decide (status = "success")
                                                  then "paid" else "canceled") t
                                else t))) w)
         ch [].
Proof.
  intros Hf Ht. destruct w as [[os us ps ts rk] fs u n].
  cbn in *. subst fs. unfold find_track_of_order in *. cbn in *.
  exec; congruence.
Qed.

Lemma inventory_decrements w ch orderId status o :
  faults w = [] → status ≠ "failed" →
  find_order orderId (db w) = Some o →
  underflows (order_products o) (products (db w)) = false →
  run (Inventory.consumer (DMsg (PaymentProcessed orderId status))) (fresh ch w)
  = mkSt (set_db (set_products (fmap (decremented (order_products o)))) w) ch [].
Proof.
  intros Hf Hs Ho Hunder. destruct w as [[os us ps ts rk] fs u n].
  cbn [db faults products] in *. subst fs. unfold find_order in *.
  cbn [db orders] in *. exec; congruence.
Qed.

(** ** Orchestration and choreography *)

Lemma consumers_orders handlers :
  handlers ≡ₚ consumers →
  handlers ∈ permutations consumers.
Proof. intros H. by apply permutations_Permutation. Qed.

Section choreography.
Variables (d : Db) (u : nat → string) (n : nat) (productId : string).
Variables (b : User) (p : Products).
Hypothesis Hpid : productId ≠ "".
Hypothesis Hproto : productId ∉ Inventory.object_prototype.
Hypothesis Hb : find_user Orders.buyer d = Some b.
Hypothesis Ho : find_order (u n) d = None.
Hypothesis Hto : find_track_of_order (u n) d = None.
Hypothesis Ht : find_track (u (S n)) d = None.
Hypothesis Hm : matched [productId] d = [p].
Hypothesis Hstock : 1 ≤ product_stockAmount p.
Hypothesis Hbal : (user_balance b <? 0 + product_price p)%float = false.
Hypothesis Hover : overflows (user_balance b) (0 + product_price p) = false.

Let o0 := mkOrder (u n) Orders.buyer [].
Let o1 := mkOrder (u n) Orders.buyer [productId].
Let t0 := mkOrderTrack (u (S n)) (u n) "created".
Let t1 := mkOrderTrack (u (S n)) (u n) "paid".
Let total := (0 + product_price p)%float.
Let users' := debit Orders.buyer total <$> users d.
Let products' := decremented [productId] <$> products d.
Let store os us ps ts := mkDb os us ps ts (position d).

Lemma accepted :
  run (Orders.create_async productId) (fresh (ChOpen true) (mkWorld d [] u n))
  = mkSt (mkWorld (store (orders d ++ [o0]) (users d) (products d) (orderTracks d))
                  [] u (S n))
         (ChOpen true)
         [Published (OrderCreated (u n) [productId]); Sent 201 (BOrder "Order Created" o0)].
Proof.
  clear Ht Hto Hm Hstock Hbal Hover. unfold find_user, find_order in *.
  exec; try congruence; done.
Qed.

(** [order.created]: the tracking service adds the tracker, the inventory
    service connects the product, in either order. *)
Lemma tracker_added o :
  order_id o = u n →
  run (Tracking.consumer (DMsg (OrderCreated (u n) [productId])))
      (fresh (ChOpen true)
         (mkWorld (store (orders d ++ [o]) (users d) (products d) (orderTracks d))
                  [] u (S n)))
  = mkSt (mkWorld (store (orders d ++ [o]) (users d) (products d) (orderTracks d ++ [t0]))
                  [] u (S (S n)))
         (ChOpen true) [].
Proof.
  intros Hid.
  set (d' := store (orders d ++ [o]) (users d) (products d) (orderTracks d)).
  by rewrite (tracking_creates (mkWorld d' [] u (S n)) (ChOpen true) (u n) [productId] o
                eq_refl (order_found u n (orders d) o Ho Hid) Hto Ht).
Qed.

Lemma product_connected ts k :
  run (Inventory.consumer (DMsg (OrderCreated (u n) [productId])))
      (fresh (ChOpen true)
         (mkWorld (store (orders d ++ [o0]) (users d) (products d) ts) [] u k))
  = mkSt (mkWorld (store (orders d ++ [o1]) (users d) (products d) ts) [] u k)
         (ChOpen true) [Published (InventoryChecked (u n) true)].
Proof.
  set (d' := store (orders d ++ [o0]) (users d) (products d) ts).
  rewrite (inventory_reserves (mkWorld d' [] u k) true (u n) [productId] o0
             eq_refl (order_found u n (orders d) o0 Ho eq_refl));
    [|change (matched [productId] (db _)) with (matched [productId] d); by rewrite Hm].
  cbv zeta. cbn [db].
  change (matched [productId] d') with (matched [productId] d).
  rewrite (one_available d productId p Hproto Hm Hstock), Hm.
  unfold set_db, set_orders, d', store. cbn -[connect]. do 3 f_equal.
  exact (connected_to_new_order d u n productId p Ho Hm).
Qed.

(** [inventory.checked]: the payment service debits the buyer. *)
Lemma buyer_debited :
  run (Payment.consumer (DMsg (InventoryChecked (u n) true)))
      (fresh (ChOpen true)
         (mkWorld (store (orders d ++ [o1]) (users d) (products d) (orderTracks d ++ [t0]))
                  [] u (S (S n))))
  = mkSt (mkWorld (store (orders d ++ [o1]) users' (products d) (orderTracks d ++ [t0]))
                  [] u (S (S n)))
         (ChOpen true) [Published (PaymentProcessed (u n) "success")].
Proof.
  set (d' := store (orders d ++ [o1]) (users d) (products d) (orderTracks d ++ [t0])).
  rewrite (settle_run (mkWorld d' [] u (S (S n))) (ChOpen true) (u n) o1 b eq_refl
             (order_found u n (orders d) o1 Ho eq_refl) Hb).
  cbv zeta. cbn [db].
  rewrite (one_price d productId p Hm o1 d') by done.
  change (Payment.totalAmount [product_price p]) with total.
  fold total in Hbal, Hover. by rewrite Hbal, Hover.
Qed.

(** [payment.processed]: the tracking service marks the tracker, the
    inventory service takes the unit, in either order. *)
Lemma tracker_paid ps :
  run (Tracking.consumer (DMsg (PaymentProcessed (u n) "success")))
      (fresh (ChOpen true)
         (mkWorld (store (orders d ++ [o1]) users' ps (orderTracks d ++ [t0]))
                  [] u (S (S n))))
  = mkSt (mkWorld (store (orders d ++ [o1]) users' ps (orderTracks d ++ [t1]))
                  [] u (S (S n)))
         (ChOpen true) [].
Proof.
  set (d' := store (orders d ++ [o1]) users' ps (orderTracks d ++ [t0])).
  assert (Htr : find_track_of_order (u n) d' = Some t0).
  { unfold find_track_of_order in *. cbn. rewrite find_app_decide, Hto. cbn.
    by rewrite bool_decide_eq_true_2. }
  rewrite (tracking_projects (mkWorld d' [] u (S (S n))) (ChOpen true) (u n) "success" t0
             eq_refl Htr).
  unfold set_db, set_orderTracks, d', store. cbn. do 3 f_equal. rewrite fmap_app.
  rewrite (fmap_unmatched track_orderId (with_status "paid") (u n)) by exact Hto.
  cbn. by rewrite bool_decide_eq_true_2.
Qed.

Lemma unit_taken ts :
  run (Inventory.consumer (DMsg (PaymentProcessed (u n) "success")))
      (fresh (ChOpen true)
         (mkWorld (store (orders d ++ [o1]) users' (products d) ts) [] u (S (S n))))
  = mkSt (mkWorld (store (orders d ++ [o1]) users' products' ts) [] u (S (S n)))
         (ChOpen true) [].
Proof.
  set (d' := store (orders d ++ [o1]) users' (products d) ts).
  by rewrite (inventory_decrements (mkWorld d' [] u (S (S n))) (ChOpen true) (u n) "success" o1
                eq_refl ltac:(discriminate) (order_found u n (orders d) o1 Ho eq_refl)
                (one_above_minimum d productId p Hm Hstock)).
Qed.

Ltac deliver_step :=
  first
    [ rewrite tracker_added by done
    | rewrite product_connected
    | rewrite buyer_debited
    | rewrite tracker_paid
    | rewrite unit_taken
    | progress change (run (Payment.consumer (DMsg (OrderCreated ?a ?b))) ?s) with s
    | progress change (run (Payment.consumer (DMsg (PaymentProcessed ?a ?b))) ?s) with s
    | progress change (run (Tracking.consumer (DMsg (InventoryChecked ?a true))) ?s) with s
    | progress change (run (Inventory.consumer (DMsg (InventoryChecked ?a ?b))) ?s) with s ];
  cbn [world trace fst snd];
  repeat change (world (fresh ?c ?w)) with w;
  repeat change (trace (fresh ?c ?w)) with (@nil Effect).

Ltac deliver_all H :=
  apply consumers_orders in H; cbn in H;
  repeat (apply elem_of_cons in H as [->|H]); [..|by apply elem_of_nil in H];
  unfold deliver; cbn [foldl fst snd];
  repeat deliver_step; reflexivity.

Lemma first_round handlers :
  handlers ≡ₚ consumers →
  deliver handlers (OrderCreated (u n) [productId])
          (mkWorld (store (orders d ++ [o0]) (users d) (products d) (orderTracks d))
                   [] u (S n))
  = (mkWorld (store (orders d ++ [o1]) (users d) (products d) (orderTracks d ++ [t0]))
             [] u (S (S n)),
     [InventoryChecked (u n) true]).
Proof. intros H. deliver_all H. Qed.

Lemma second_round handlers :
  handlers ≡ₚ consumers →
  deliver handlers (InventoryChecked (u n) true)
          (mkWorld (store (orders d ++ [o1]) (users d) (products d) (orderTracks d ++ [t0]))
                   [] u (S (S n)))
  = (mkWorld (store (orders d ++ [o1]) users' (products d) (orderTracks d ++ [t0]))
             [] u (S (S n)),
     [PaymentProcessed (u n) "success"]).
Proof. intros H. deliver_all H. Qed.

Lemma third_round handlers :
  handlers ≡ₚ consumers →
  deliver handlers (PaymentProcessed (u n) "success")
          (mkWorld (store (orders d ++ [o1]) users' (products d) (orderTracks d ++ [t0]))
                   [] u (S (S n)))
  = (mkWorld (store (orders d ++ [o1]) users' products' (orderTracks d ++ [t1]))
             [] u (S (S n)),
     []).
Proof. intros H. deliver_all H. Qed.

Lemma choreography_paid schedule :
  Forall (λ handlers, handlers ≡ₚ consumers) schedule →
  (3 ≤ length schedule)%nat →
  choreography schedule productId (mkWorld d [] u n)
  = (mkWorld (store (orders d ++ [o1]) users' products' (orderTracks d ++ [t1]))
             [] u (S (S n)),
     []).
Proof.
  intros Hs Hl. destruct schedule as [|h1 [|h2 [|h3 later]]]; cbn in Hl; try lia.
  apply Forall_cons in Hs as [H1 Hs]. apply Forall_cons in Hs as [H2 Hs].
  apply Forall_cons in Hs as [H3 _].
  unfold choreography. rewrite accepted.
  change (published (trace _)) with [OrderCreated (u n) [productId]].
  cbn [world drain]. rewrite (first_round h1 H1). cbn [app drain].
  rewrite (second_round h2 H2). cbn [app drain]. rewrite (third_round h3 H3). cbn [app].
  by destruct later.
Qed.

End choreography.

(** X16: orchestration and choreography leave the same store.  Under the
    conditions of the paid synchronous order, [POST /api/v2/order] on an
    open channel followed by the delivery of the three messages it sets
    off, each handled by the three consuming services before the next
    is delivered and in whatever order among them, ends with nothing
    left to deliver and in the very world [POST /api/v1/order] leaves. *)
Theorem choreography_reaches_the_synchronous_store d u n ch productId b p schedule :
  productId ≠ "" → productId ∉ Inventory.object_prototype →
  url_safe (u n) = true → url_safe (u (S n)) = true →
  find_user Orders.buyer d = Some b →
  find_order (u n) d = None →
  find_track_of_order (u n) d = None →
  find_track (u (S n)) d = None →
  matched [productId] d = [p] →
  1 ≤ product_stockAmount p →
  is_finite (user_balance b) = true → is_finite (product_price p) = true →
  (user_balance b <? 0 + product_price p)%float = false →
  overflows (user_balance b) (0 + product_price p) = false →
  Forall (λ handlers, handlers ≡ₚ consumers) schedule →
  (3 ≤ length schedule)%nat →
  choreography schedule productId (mkWorld d [] u n)
  = (world (run (Orders.create network productId) (fresh ch (mkWorld d [] u n))), []).
Proof.
  intros Hpid Hproto Hoid%url_safe_named Htid%url_safe_named Hb Ho Hto Ht Hm Hstock _ _ Hbal Hover Hs Hl.
  destruct (synchronous_paid d u n productId b p
              Hpid Hproto Hoid Htid Hb Ho Hto Ht Hm Hstock ch Hbal Hover) as [_ Hw].
  cbv zeta in Hw. rewrite Hw.
  exact (choreography_paid d u n productId b p Hpid Hproto Hb Ho Hto Ht Hm Hstock
           Hbal Hover schedule Hs Hl).
Qed.

Lemma choreography_reaches_the_synchronous_store_witness :
  let w := mkWorld (mkDb [] [mkUser Orders.buyer 1000%float]
                         [mkProducts "P" 1%float 100] [] table_order)
                   [] sample_uuid 0 in
  choreography [consumers; rev consumers; consumers] "P" w
  = (world (run (Orders.create network "P") (fresh ChUndefined w)), []).
Proof.
  apply (choreography_reaches_the_synchronous_store
           (mkDb [] [mkUser Orders.buyer 1000%float] [mkProducts "P" 1%float 100] []
                 table_order)
           sample_uuid 0%nat ChUndefined "P"
           (mkUser Orders.buyer 1000%float) (mkProducts "P" 1%float 100));
    [discriminate|by apply (bool_decide_eq_false_1 (_ ∈ _))
    |reflexivity|reflexivity
    |reflexivity|reflexivity|reflexivity|reflexivity|reflexivity|cbn; lia
    |reflexivity|reflexivity|reflexivity|reflexivity| |cbn; lia].
  repeat apply Forall_cons_2; [done|symmetry; apply Permutation_rev|done|apply Forall_nil_2].
Defined.

(** X17: a rejected status, in general.  [PATCH /api/v1/track/update]
    with a tracker identifier and a status that is neither ['paid'] nor
    ['canceled']: whatever the store does, the one thing written to the
    client is the 400 of the guard, and the handler then throws out of
    its own [catch], whose 500 cannot be written any more.  When the
    store answers, a tracker that exists is left with the rejected
    status and a tracker that does not leaves the table as it was. *)
Theorem update_rejected_status_throws w ch trackerId newStatus :
  trackerId ≠ "" → newStatus ≠ "" → ¬ terminal newStatus →
  let s := run (Tracking.update trackerId newStatus) (fresh ch w) in
  trace s = [Sent 400 (BError "newStatus must be either 'paid' or 'canceled'")]
  ∧ outcome (Tracking.update trackerId newStatus) (fresh ch w) = Thrown
  ∧ (faults w = [] →
     match find_track trackerId (db w) with
     | Some t => find_track trackerId (db (world s)) = Some (with_status newStatus t)
     | None => db (world s) = db w
     end).
Proof.
  intros Hid Hns Hterm. unfold terminal in Hterm.
  assert (Hp : newStatus ≠ "paid") by tauto.
  assert (Hc : newStatus ≠ "canceled") by tauto.
  destruct w as [[os us ps ts rk] fs u n]. cbv zeta. unfold find_track. cbn [db orderTracks].
  split_and!.
  - exec; congruence.
  - exec; congruence.
  - cbn [faults]. intros ->.
    destruct (find (λ t, bool_decide (track_id t = trackerId)) ts) as [t|] eqn:Hf.
    + assert (Hg : find (λ t, bool_decide (track_id t = trackerId))
                     ((λ t, if bool_decide (track_id t = trackerId)
                            then with_status newStatus t else t) <$> ts)
                   = Some (with_status newStatus t)).
      { rewrite (find_fmap_proj track_id
                   (λ t, if bool_decide (track_id t = trackerId)
                         then with_status newStatus t else t)).
        - rewrite Hf. cbn. apply find_decide_Some in Hf as [Hf _].
          by rewrite bool_decide_eq_true_2.
        - intros x. by case_bool_decide. }
      exec; try congruence. exact Hg.
    + exec; congruence.
Qed.

Lemma update_rejected_status_throws_witness :
  let s := run (Tracking.update "t1" "shipped") (fresh ChUndefined created_world) in
  trace s = [Sent 400 (BError "newStatus must be either 'paid' or 'canceled'")]
  ∧ outcome (Tracking.update "t1" "shipped") (fresh ChUndefined created_world) = Thrown
  ∧ (faults created_world = [] →
     match find_track "t1" (db created_world) with
     | Some t => find_track "t1" (db (world s)) = Some (with_status "shipped" t)
     | None => db (world s) = db created_world
     end).
Proof.
  apply (update_rejected_status_throws created_world ChUndefined "t1" "shipped");
    [discriminate|discriminate|intros [?|?]; discriminate].
Defined.

(** X18: missing keys.  With the store answering, a route answers 400
    when a field it reads from the request body is missing or empty, and
    404 when the key it is given is not stored; [POST /api/v1/order]
    answers 500 when its buyer is not stored.  In each case that
    response is the handler's one effect (no peer is called, nothing is
    published) and the store is left as it was.  The identifiers that
    come as path parameters are taken as not empty: Express matches no
    empty segment, so the handlers' guards on them are never reached. *)
Theorem missing_keys_are_refused peer w :
  faults w = [] →
  let refused h c b := ∀ ch, run h (fresh ch w) = mkSt w ch [Sent c b] in
  refused (Tracking.create "") 400 (BError "orderId is required")
  ∧ (∀ orderId,
       orderId ≠ "" → find_order orderId (db w) = None →
       refused (Tracking.create orderId)
               404 (BError ("Order " +:+ orderId +:+ " not found")))
  ∧ (∀ trackerId,
       trackerId ≠ "" →
       refused (Tracking.update trackerId "") 400 (BError "newStatus is required"))
  ∧ (∀ trackerId newStatus,
       trackerId ≠ "" → terminal newStatus → find_track trackerId (db w) = None →
       refused (Tracking.update trackerId newStatus)
               404 (BError ("Tracker " +:+ trackerId +:+ " not found")))
  ∧ (∀ trackerId,
       trackerId ≠ "" → find_track trackerId (db w) = None →
       refused (Tracking.get trackerId)
               404 (BError ("Tracker " +:+ trackerId +:+ " not found")))
  ∧ (∀ orderId productIds,
       orderId = "" ∨ productIds = [] →
       refused (Inventory.check orderId productIds)
               400 (BError "orderId and productIds are required"))
  ∧ (∀ orderId,
       orderId ≠ "" → find_order orderId (db w) = None →
       refused (Inventory.update orderId)
               404 (BError ("Order " +:+ orderId +:+ " not found")))
  ∧ refused (Payment.pay peer "") 400 (BPaymentProcessed "" "failed")
  ∧ (∀ orderId,
       orderId ≠ "" → find_order orderId (db w) = None →
       refused (Payment.pay peer orderId) 404 (BPaymentProcessed orderId "failed"))
  ∧ refused (Orders.create peer "") 400 (BError "productId is required")
  ∧ refused (Orders.create_async "") 400 (BError "productId is required")
  ∧ (∀ productId ch,
       productId ≠ "" → find_user Orders.buyer (db w) = None →
       let s := run (Orders.create peer productId) (fresh ch w) in
       db (world s) = db w
       ∧ trace s = [Sent 500 (BError "Internal Server Error while creating order")]).
Proof.
  intros Hf. destruct w as [[os us ps ts rk] fs u n]. cbn in Hf. subst fs.
  unfold terminal, find_order, find_track, find_user. cbn [db orders users orderTracks].
  cbv zeta. split_and!; intros.
  all: repeat match goal with H : _ ∨ _ |- _ => destruct H as [->| ->] end.
  all: exec; try congruence; done.
Qed.

Lemma missing_keys_are_refused_witness :
  let refused h c b :=
    ∀ ch, run h (fresh ch shop_world) = mkSt shop_world ch [Sent c b] in
  refused (Tracking.create "") 400 (BError "orderId is required")
  ∧ refused (Tracking.get "t9") 404 (BError "Tracker t9 not found")
  ∧ refused (Inventory.update "o9") 404 (BError "Order o9 not found")
  ∧ refused (Payment.pay backends "o9") 404 (BPaymentProcessed "o9" "failed").
Proof.
  pose proof (missing_keys_are_refused backends shop_world eq_refl) as H.
  cbv zeta in H. cbv zeta.
  destruct H as (H1 & _ & _ & _ & H5 & _ & H7 & _ & H9 & _). split_and!.
  - exact H1.
  - exact (H5 "t9" ltac:(discriminate) eq_refl).
  - exact (H7 "o9" ltac:(discriminate) eq_refl).
  - exact (H9 "o9" ltac:(discriminate) eq_refl).
Defined.
